(** * Band-plan generator of the Hurdle 2 transmitter

    A shallow embedding of [src/hurdle2/generate_band_plan.py] and the
    properties of its rejection-sampling placement loop.

    Modelling choices.
    - Python integers are [Z]; Python floats (frequencies, SNR values) are
      idealised as exact rationals [Q], and the [==] that [list.index] uses
      is [Qeq_bool].  Rounding of IEEE doubles is not modelled.  The
      per-signal properties of [signal_well_formed] are stated for
      magnitudes at which the doubles of the program neither underflow to
      zero nor overflow; the properties of Section [Layout] are stated on
      bin indices and list positions and hold whatever values the grid
      holds.
    - Python sets of bin indices are [gset Z]; [list(s)] at the output
      boundary is [elements s] (Python leaves that order unspecified).
    - The module-level generator of Python's [random] is an abstract state
      [G] with the interface [PyRandom]; every call threads it explicitly
      through the state-and-exception monad [Rand].
    - Python exceptions are values of [exn]; the [while] loop is a fixpoint
      on a fuel that counts iterations.
    - [int(w/2)] is [Z.quot w 2] and [%] is [Z.modulo], whose result has
      the sign of the divisor as Python's has. *)

From Stdlib Require Import ZArith QArith Qabs Lqa Lia String.
From stdpp Require Import base list gmap sets sorting.

Local Open Scope Z_scope.

(** ** Exceptions and results *)

Inductive exn : Set := ZeroDivisionError | ValueError | IndexError.

Inductive result (A : Type) : Type :=
| Ok (a : A)
| Raise (e : exn).
Arguments Ok {A} a.
Arguments Raise {A} e.

(** ** The interface of Python's [random] module

    [rnd_seed a] is the state after [random.seed(a)], [rnd_random] is
    [random.random()] and [rnd_below n] is the internal [_randbelow(n)] on
    which [randrange], [randint] and [choice] are built.  [rnd_draws] is a
    ghost counter of the draws made so far. *)

Class PyRandom (G : Type) : Type := {
  rnd_seed : Z -> G;
  rnd_random : G -> Q * G;
  rnd_below : Z -> G -> Z * G;
  rnd_draws : G -> nat;
  rnd_random_range : forall g,
    (0 <= fst (rnd_random g))%Q /\ (fst (rnd_random g) < 1)%Q;
  rnd_below_range : forall n g,
    0 < n -> 0 <= fst (rnd_below n g) < n;
  rnd_random_draws : forall g,
    rnd_draws (snd (rnd_random g)) = S (rnd_draws g);
  rnd_below_draws : forall n g,
    rnd_draws (snd (rnd_below n g)) = S (rnd_draws g)
}.

(** The process state a call starts from: the module-level generator and
    the entropy that [random.seed(None)] reads from the operating system. *)

Record World (G : Type) : Type := mkWorld {
  global_rng : G;
  os_entropy : Z
}.
Arguments mkWorld {G} _ _.
Arguments global_rng {G} _.
Arguments os_entropy {G} _.

(** ** Pure Python helpers *)

(** [range(n)] *)
Definition py_range (n : Z) : list Z := seqZ 0 n.

(** [l[start:stop]], with Python's treatment of negative and oversized
    bounds. *)
Definition py_slice {A : Type} (l : list A) (start stop : Z) : list A :=
  let len := Z.of_nat (length l) in
  let adj i := if i <? 0 then Z.max (i + len) 0 else Z.min i len in
  let a := adj start in
  let b := adj stop in
  take (Z.to_nat (b - a)) (drop (Z.to_nat a) l).

(** [l.index(x)]: the first position whose entry compares equal to [x]. *)
Fixpoint py_index (x : Q) (l : list Q) : result Z :=
  match l with
  | [] => Raise ValueError
  | y :: l' =>
      if Qeq_bool y x then Ok 0
      else match py_index x l' with
           | Ok i => Ok (Z.succ i)
           | Raise e => Raise e
           end
  end.

(** [min(s)] and [max(s)] of a set. *)
Definition py_min (s : gset Z) : result Z :=
  match elements s with
  | [] => Raise ValueError
  | x :: xs => Ok (foldr Z.min x xs)
  end.

Definition py_max (s : gset Z) : result Z :=
  match elements s with
  | [] => Raise ValueError
  | x :: xs => Ok (foldr Z.max x xs)
  end.

(** [a % n] *)
Definition py_mod (a n : Z) : result Z :=
  if n =? 0 then Raise ZeroDivisionError else Ok (a mod n).

(** ** Signals and band plans

    A signal is a Python dict; [bins] is [gset Z] while the loop runs and
    [list Z] in the returned plan.  [modulation_type] is [None] as long as
    the key has not been written. *)

Module Signal.
Record t (bins : Type) : Type := mk {
  n_bins : Z;
  snr : Q;
  center_freq : Q;
  occupied_bins : bins;
  guard_bins : bins;
  modulation_type : option string
}.
Arguments mk {bins} _ _ _ _ _ _.
Arguments n_bins {bins} _.
Arguments snr {bins} _.
Arguments center_freq {bins} _.
Arguments occupied_bins {bins} _.
Arguments guard_bins {bins} _.
Arguments modulation_type {bins} _.
End Signal.

Module BandPlan.
Record t : Type := mk {
  freq_span : Q;
  n_bins : Z;
  n_signals : Z;
  signals : list (Signal.t (list Z))
}.
End BandPlan.

(** What a call, or a bounded run of the loop, can end in. *)
Inductive outcome (A : Type) : Type :=
| Returns (a : A)
| Raises (e : exn)
| OutOfFuel.
Arguments Returns {A} a.
Arguments Raises {A} e.
Arguments OutOfFuel {A}.

Section Generator.
Context {G : Type} `{RNG : PyRandom G}.

(** *** The monad of random draws that may raise *)

Definition Rand (A : Type) : Type := G -> result (A * G).

Definition ret {A : Type} (a : A) : Rand A := fun g => Ok (a, g).

Definition bind {A B : Type} (m : Rand A) (k : A -> Rand B) : Rand B :=
  fun g => match m g with
           | Ok (a, g') => k a g'
           | Raise e => Raise e
           end.

Definition lift {A : Type} (r : result A) : Rand A :=
  fun g => match r with
           | Ok a => Ok (a, g)
           | Raise e => Raise e
           end.

Notation "'let*' x ':=' m 'in' k" := (bind m (fun x => k))
  (at level 10, x name, m at level 100, k at level 200).
Notation "'let*' ' p ':=' m 'in' k" :=
  (bind m (fun x => match x with p => k end))
  (at level 10, p pattern, m at level 100, k at level 200).

(** [random.randint(a, b)] is [randrange(a, b+1)]. *)
Definition randint (a b : Z) : Rand Z := fun g =>
  if b <? a then Raise ValueError
  else let (k, g') := rnd_below (b - a + 1) g in Ok (a + k, g').

(** [random.uniform(a, b)] is [a + (b-a) * random()]. *)
Definition uniform (a b : Q) : Rand Q := fun g =>
  let (u, g') := rnd_random g in Ok ((a + (b - a) * u)%Q, g').

(** [random.choice(seq)] is [seq[_randbelow(len(seq))]]. *)
Definition choice {A : Type} (seq : list A) : Rand A := fun g =>
  match seq with
  | [] => Raise IndexError
  | _ :: _ =>
      let (k, g') := rnd_below (Z.of_nat (length seq)) g in
      match seq !! Z.to_nat k with
      | Some x => Ok (x, g')
      | None => Raise IndexError
      end
  end.

(** [random.seed(a)] *)
Definition random_seed (a : option Z) (w : World G) : World G :=
  match a with
  | Some s => mkWorld (rnd_seed s) (os_entropy w)
  | None => mkWorld (rnd_seed (os_entropy w)) (os_entropy w)
  end.

(** *** The body of [generate_band_plan] *)

Variables (channel_bandwidth : Q) (n_bins n_signals : Z).
Variables (min_snr_db max_snr_db : Q) (signal_types : list string).
Variables (max_signal_bins max_tries : Z).

Definition bin_bandwidth : Q := (channel_bandwidth / inject_Z n_bins)%Q.

Definition bin_edges : list Q :=
  (fun i => (inject_Z i * bin_bandwidth - channel_bandwidth / 2)%Q)
    <$> py_range (n_bins + 1).

Definition bin_centers : list Q :=
  (fun i => (inject_Z i * bin_bandwidth + bin_bandwidth / 2
             - channel_bandwidth / 2)%Q)
    <$> py_range n_bins.

Definition valid_bins : gset Z := list_to_set (py_range n_bins).

(** Lines 125-126 and 139-140: the candidate centre frequencies. *)
Definition valid_edges (width : Z) : list Q :=
  let num_invalid_edges := Z.quot width 2 in
  py_slice bin_edges num_invalid_edges (n_bins - num_invalid_edges).

Definition valid_centers (width : Z) : list Q :=
  let num_invalid_bins := Z.quot width 2 in
  py_slice bin_centers num_invalid_bins (n_bins - num_invalid_bins).

(** Lines 111-157: one candidate, without its modulation type. *)
Definition candidate : Rand (Signal.t (gset Z)) :=
  let* width := randint 1 max_signal_bins in
  let* snr := uniform min_snr_db max_snr_db in
  let* '(center_freq, occupied_bins) :=
    (if width mod 2 =? 0 then
       let num_invalid_edges := Z.quot width 2 in
       let* center_freq := choice (valid_edges width) in
       let* edge_ind := lift (py_index center_freq bin_edges) in
       ret (center_freq,
            list_to_set ((fun x => edge_ind - num_invalid_edges + x)
                           <$> py_range width))
     else
       let num_invalid_bins := Z.quot width 2 in
       let* center_freq := choice (valid_centers width) in
       let* bin_ind := lift (py_index center_freq bin_centers) in
       ret (center_freq,
            list_to_set ((fun x => bin_ind - num_invalid_bins + x)
                           <$> py_range width))) in
  let* lo := lift (py_min occupied_bins) in
  let* below := lift (py_mod (lo - 1) n_bins) in
  let* hi := lift (py_max occupied_bins) in
  let* above := lift (py_mod (hi + 1) n_bins) in
  let guard_bins : gset Z := {[ below; above ]} ∩ valid_bins in
  ret (Signal.mk width snr center_freq occupied_bins guard_bins None).

(** Lines 160-166: the scan over the accepted signals, with its [break]. *)
Fixpoint overlaps (signal : Signal.t (gset Z))
    (signals : list (Signal.t (gset Z))) : bool :=
  match signals with
  | [] => false
  | existing :: rest =>
      let occupied_or_guard : gset Z :=
        Signal.occupied_bins existing ∪ Signal.guard_bins existing in
      if 0 <? Z.of_nat (size (Signal.occupied_bins signal ∩ occupied_or_guard))
      then true
      else overlaps signal rest
  end.

Definition set_modulation_type (m : string) (s : Signal.t (gset Z))
  : Signal.t (gset Z) :=
  Signal.mk (Signal.n_bins s) (Signal.snr s) (Signal.center_freq s)
    (Signal.occupied_bins s) (Signal.guard_bins s) (Some m).

(** Lines 111-173, one pass through the loop body: [None] is the
    [continue] of a rejected candidate, [Some s] the signal appended. *)
Definition attempt (signals : list (Signal.t (gset Z)))
  : Rand (option (Signal.t (gset Z))) :=
  let* signal := candidate in
  if overlaps signal signals then ret None
  else
    let* m := choice signal_types in
    ret (Some (set_modulation_type m signal)).

(** The state of the [while] loop. *)
Record loop_state : Type := mkLoop {
  signals_of : list (Signal.t (gset Z));
  tries_of : Z;
  rng_of : G
}.

Inductive loop_outcome : Type :=
| Done (st : loop_state)
| Raised (e : exn)
| Paused (st : loop_state).

(** Lines 109-173.  With fuel [k] the loop either finishes within [k]
    iterations, or is [Paused] in the state reached after exactly [k]
    iterations with its condition still true. *)
Fixpoint placement_loop (fuel : nat) (st : loop_state) : loop_outcome :=
  if (Z.of_nat (length (signals_of st)) <? n_signals)
     && (tries_of st <? max_tries)
  then
    match fuel with
    | O => Paused st
    | S fuel' =>
        let tries := tries_of st + 1 in
        match attempt (signals_of st) (rng_of st) with
        | Raise e => Raised e
        | Ok (None, g') =>
            placement_loop fuel' (mkLoop (signals_of st) tries g')
        | Ok (Some signal, g') =>
            placement_loop fuel'
              (mkLoop (signals_of st ++ [signal]) tries g')
        end
    end
  else Done st.

(** Lines 176-178: sets become lists. *)
Definition to_lists (s : Signal.t (gset Z)) : Signal.t (list Z) :=
  Signal.mk (Signal.n_bins s) (Signal.snr s) (Signal.center_freq s)
    (elements (Signal.occupied_bins s)) (elements (Signal.guard_bins s))
    (Signal.modulation_type s).

(** Lines 187-194. *)
Definition assemble (signals : list (Signal.t (gset Z))) : BandPlan.t :=
  BandPlan.mk channel_bandwidth n_bins (Z.of_nat (length signals))
    (to_lists <$> signals).

Definition initial_state (instance_seed : option Z) (w : World G)
  : loop_state :=
  mkLoop [] 0 (global_rng (random_seed instance_seed w)).

(** The whole function.  Line 90 divides by [n_bins] before anything
    else; the loop gets [max_tries] units of fuel. *)
Definition generate_band_plan_body (instance_seed : option Z) (w : World G)
  : outcome BandPlan.t :=
  if n_bins =? 0 then Raises ZeroDivisionError
  else
    match placement_loop (Z.to_nat max_tries) (initial_state instance_seed w) with
    | Done st => Returns (assemble (signals_of st))
    | Raised e => Raises e
    | Paused _ => OutOfFuel
    end.

End Generator.

Arguments loop_state G : clear implicits.
Arguments loop_outcome G : clear implicits.
Arguments Rand G A : clear implicits.
Arguments mkLoop {G} _ _ _.
Arguments signals_of {G} _.
Arguments tries_of {G} _.
Arguments rng_of {G} _.
Arguments Done {G} st.
Arguments Raised {G} e.
Arguments Paused {G} st.

(** [generate_band_plan] with the parameters in the order of the source. *)
Definition generate_band_plan {G : Type} `{RNG : PyRandom G}
    (channel_bandwidth : Q) (n_bins n_signals : Z)
    (min_snr_db max_snr_db : Q) (signal_types : list string)
    (instance_seed : option Z) (max_signal_bins max_tries : Z)
    (w : World G) : outcome BandPlan.t :=
  generate_band_plan_body channel_bandwidth n_bins n_signals
    min_snr_db max_snr_db signal_types max_signal_bins max_tries
    instance_seed w.

(** ** A scripted generator

    An instance of [PyRandom] whose seed spells out the draws: the
    hexadecimal digits of the seed, least significant first, are the raw
    values, and [0] follows once they are used up. *)

Record tape : Type := mkTape {
  cells : list Z;
  used : nat
}.

Fixpoint hex_digits (fuel : nat) (z : Z) : list Z :=
  match fuel with
  | O => []
  | S fuel' => if z <=? 0 then [] else (z mod 16) :: hex_digits fuel' (z / 16)
  end.

Definition tape_seed (a : Z) : tape :=
  mkTape (hex_digits (Z.to_nat (Z.log2 a) + 1) a) 0.

Definition tape_next (t : tape) : Z * tape :=
  (hd 0 (cells t), mkTape (tl (cells t)) (S (used t))).

Definition tape_below (n : Z) (t : tape) : Z * tape :=
  (fst (tape_next t) mod n, snd (tape_next t)).

Definition tape_random (t : tape) : Q * tape :=
  (Qmake (fst (tape_next t) mod 16) 16, snd (tape_next t)).

#[export, refine] Instance tape_rng : PyRandom tape := {
  rnd_seed := tape_seed;
  rnd_random := tape_random;
  rnd_below := tape_below;
  rnd_draws := used
}.
Proof.
  - intros g. unfold tape_random. cbn [fst].
    pose proof (Z.mod_pos_bound (fst (tape_next g)) 16 ltac:(lia)) as Hb.
    unfold Qle, Qlt. cbn [Qnum Qden]. lia.
  - intros n g Hn. unfold tape_below. cbn [fst].
    apply Z.mod_pos_bound. exact Hn.
  - reflexivity.
  - reflexivity.
Defined.

(** ** Notions used in the statements *)

(** Where a candidate of width [w] that starts at bin [lo] lies: inside the
    grid when the grid frequencies are pairwise different, across bin [0]
    when the channel bandwidth is zero and they all coincide. *)
Definition placed (channel_bandwidth : Q) (n_bins lo w : Z) : Prop :=
  if Qeq_bool channel_bandwidth 0 then lo <= 0 < lo + w
  else 0 <= lo /\ lo + w <= n_bins.

(** The even-width candidates as the specification words them: [bin_edges]
    with its first [half] and its last [half] entries removed. *)
Definition spec_valid_edges (channel_bandwidth : Q) (n_bins width : Z)
  : list Q :=
  let half := Z.to_nat (width / 2) in
  let edges := bin_edges channel_bandwidth n_bins in
  drop half (take (length edges - half) edges).

(** The bins and the SNR of a signal that the loop has drawn: a run of
    [n_bins s] bins from some [lo], the two neighbours of the run modulo
    [n_bins] as guard bins, and an SNR on the segment between the two
    bounds. *)
Definition shaped (channel_bandwidth : Q) (n_bins : Z)
    (min_snr_db max_snr_db : Q) (max_signal_bins : Z)
    (s : Signal.t (gset Z)) : Prop :=
  exists lo u,
    1 <= Signal.n_bins s <= max_signal_bins /\
    1 <= n_bins /\
    Signal.occupied_bins s = list_to_set (seqZ lo (Signal.n_bins s)) /\
    Signal.guard_bins s =
      {[ (lo - 1) mod n_bins; (lo + Signal.n_bins s) mod n_bins ]}
        ∩ valid_bins n_bins /\
    placed channel_bandwidth n_bins lo (Signal.n_bins s) /\
    (0 <= u)%Q /\ (u < 1)%Q /\
    Signal.snr s = (min_snr_db + (max_snr_db - min_snr_db) * u)%Q.

(** [a] keeps clear of [b]: no occupied bin of [a] is an occupied or a
    guard bin of [b]. *)
Definition clear_of (a b : Signal.t (gset Z)) : Prop :=
  Signal.occupied_bins a
    ∩ (Signal.occupied_bins b ∪ Signal.guard_bins b) = ∅.

Definition pairwise_clear (signals : list (Signal.t (gset Z))) : Prop :=
  forall (i j : nat) a b,
    i <> j -> signals !! i = Some a -> signals !! j = Some b -> clear_of a b.

(** A signal that the loop has appended: shaped as above, and labelled
    with one of the configured modulation types. *)
Definition accepted (channel_bandwidth : Q) (n_bins : Z)
    (min_snr_db max_snr_db : Q) (signal_types : list string)
    (max_signal_bins : Z) (s : Signal.t (gset Z)) : Prop :=
  shaped channel_bandwidth n_bins min_snr_db max_snr_db max_signal_bins s /\
  exists m, Signal.modulation_type s = Some m /\ m ∈ signal_types.

(** Two lists of bin indices without a common entry. *)
Definition no_common_bin (l1 l2 : list Z) : Prop :=
  forall x, x ∈ l1 -> x ∉ l2.

(** The output form of the per-signal properties: the occupied bins,
    sorted, are the run of [Signal.n_bins s] indices from some [lo] inside
    the grid; the guard bins are inside the grid; the SNR is within its
    bounds; the modulation type is one of [signal_types]. *)
Definition well_formed_output (n_bins max_signal_bins : Z)
    (min_snr_db max_snr_db : Q) (signal_types : list string)
    (s : Signal.t (list Z)) : Prop :=
  (exists lo,
      merge_sort Z.le (Signal.occupied_bins s) = seqZ lo (Signal.n_bins s) /\
      0 <= lo /\ lo + Signal.n_bins s <= n_bins) /\
  1 <= Signal.n_bins s <= max_signal_bins /\
  length (Signal.occupied_bins s) = Z.to_nat (Signal.n_bins s) /\
  (forall x, x ∈ Signal.guard_bins s -> 0 <= x < n_bins) /\
  (min_snr_db <= Signal.snr s)%Q /\ (Signal.snr s <= max_snr_db)%Q /\
  (exists m, Signal.modulation_type s = Some m /\ m ∈ signal_types).

(** The plan of a run that accepted nothing. *)
Definition empty_plan (channel_bandwidth : Q) (n_bins : Z) : BandPlan.t :=
  BandPlan.mk channel_bandwidth n_bins 0 [].

(** ** Sample runs on the scripted generator *)

(** A process that has not used its generator yet. *)
Definition quiet_world : World tape := mkWorld (mkTape [] 0) 0.

Definition sample_types : list string := ["FM"; "QPSK"; "GMSK"]%string.

(** The seed whose draws are: width 2 at edge 6, accepted as QPSK; width 3
    at centre 5, rejected; width 1 at centre 0, accepted as GMSK; width 4
    at edge 12, accepted as FM. *)
Definition sample_seed : Z := 0xA4320F04021581.

Definition sample_plan : BandPlan.t :=
  Eval vm_compute in
    match generate_band_plan 3000000 30 3 15 20 sample_types
            (Some sample_seed) 4 10 quiet_world with
    | Returns plan => plan
    | _ => empty_plan 3000000 30
    end.

(** The same call on a channel of bandwidth zero, one signal requested. *)
Definition zero_bandwidth_plan : BandPlan.t :=
  Eval vm_compute in
    match generate_band_plan 0 30 1 15 15 ["FM"%string] (Some 1) 4 1
            quiet_world with
    | Returns plan => plan
    | _ => empty_plan 0 30
    end.

(** The smallest positive double, [2^-1074], and the largest finite one,
    [2^1024 - 2^971].  A quotient of doubles (line 90) whose exact value
    has at least the first as magnitude does not round to [0.0]; a
    difference of doubles (in [random.uniform], line 117) whose exact
    value is at most the second does not round to infinity. *)
Definition smallest_double : Q := 1 # (2 ^ 1074).

Definition largest_double : Q := inject_Z (2 ^ 1024 - 2 ^ 971).

(** The list a candidate of width [w] takes its centre from: the bin
    edges for an even width, the bin centres for an odd one (lines 123,
    126, 137, 140). *)
Definition centre_grid (channel_bandwidth : Q) (n_bins w : Z) : list Q :=
  if w mod 2 =? 0 then bin_edges channel_bandwidth n_bins
  else bin_centers channel_bandwidth n_bins.

(** A signal whose centre was drawn at position [k] of its grid and
    resolved by [index] to position [ind]: [k] lies in the candidate
    slice, [ind] is at most [k] and holds a frequency equal to the one
    drawn, and the occupied bins are the run of [n_bins s] bins from
    [ind - half]. *)
Definition resolved (channel_bandwidth : Q) (n_bins : Z)
    (s : Signal.t (gset Z)) : Prop :=
  exists k ind y,
    Signal.n_bins s / 2 <= k < n_bins - Signal.n_bins s / 2 /\
    0 <= ind <= k /\
    1 <= Signal.n_bins s /\
    Signal.occupied_bins s
    = list_to_set (seqZ (ind - Signal.n_bins s / 2) (Signal.n_bins s)) /\
    centre_grid channel_bandwidth n_bins (Signal.n_bins s) !! Z.to_nat k
    = Some (Signal.center_freq s) /\
    centre_grid channel_bandwidth n_bins (Signal.n_bins s) !! Z.to_nat ind
    = Some y /\
    (y == Signal.center_freq s)%Q.

(** The bins that the signals of a plan take up, counting for each its
    occupied bins and one bin of distance to the next signal. *)
Definition bins_claimed (signals : list (Signal.t (list Z))) : Z :=
  foldr (fun s acc => Signal.n_bins s + 1 + acc) 0 signals.

(** The bin after the span of a signal, on the grid taken as a circle
    (the second guard bin of line 153). *)
Definition bin_above (n_bins : Z) (s : Signal.t (gset Z)) : Z :=
  match py_max (Signal.occupied_bins s) with
  | Ok hi => (hi + 1) mod n_bins
  | Raise _ => 0
  end.

(** The bins that no other signal may occupy beside a signal's own: its
    span and the bin above it. *)
Definition reach (n_bins : Z) (s : Signal.t (gset Z)) : gset Z :=
  Signal.occupied_bins s ∪ {[ bin_above n_bins s ]}.

(** A signal whose span is the run of [n_bins s] bins from [lo], inside
    the grid, with the two neighbours of the run as guard bins. *)
Definition in_grid (n_bins : Z) (s : Signal.t (gset Z)) (lo : Z) : Prop :=
  1 <= Signal.n_bins s /\ 0 <= lo /\ lo + Signal.n_bins s <= n_bins /\
  Signal.occupied_bins s = list_to_set (seqZ lo (Signal.n_bins s)) /\
  Signal.guard_bins s =
    {[ (lo - 1) mod n_bins; (lo + Signal.n_bins s) mod n_bins ]}
      ∩ valid_bins n_bins.


(** A call that asks for two signals and draws bin 0 on each of its
    three attempts. *)
Definition short_plan : BandPlan.t :=
  Eval vm_compute in
    match generate_band_plan 3000000 30 2 15 15 ["FM"%string] (Some 0)
            4 3 quiet_world with
    | Returns plan => plan
    | _ => empty_plan 3000000 30
    end.

(** ** Python helpers: slices, [index], [min] and [max] *)

Lemma lookup_fmap_seqZ {A : Type} (f : Z -> A) (m len : Z) (i : nat) :
  (f <$> seqZ m len) !! i =
  if decide (Z.of_nat i < len) then Some (f (m + Z.of_nat i)) else None.
Proof.
  rewrite list_lookup_fmap. case_decide.
  - by rewrite lookup_seqZ_lt.
  - by rewrite lookup_seqZ_ge by lia.
Qed.

(** The slice [l[h : n-h]] of a list [l = [f 0, ..., f (m-1)]] that is at
    most one longer than [n]: the entries [h, ..., min (n-h) m - 1]. *)
Lemma py_slice_fmap_seqZ {A : Type} (f : Z -> A) (m n h : Z) :
  0 <= h -> m <= n + 1 ->
  py_slice (f <$> seqZ 0 m) h (n - h) = f <$> seqZ h (Z.min (n - h) m - h).
Proof.
  intros Hh Hm. unfold py_slice.
  rewrite length_fmap, length_seqZ.
  apply list_eq. intros i.
  rewrite lookup_take, lookup_drop, !lookup_fmap_seqZ.
  destruct (Z.ltb_spec h 0) as [?|_]; [lia|].
  destruct (Z.ltb_spec (n - h) 0) as [Hneg|Hpos];
    repeat case_decide; try reflexivity; try (f_equal; f_equal); lia.
Qed.

Lemma py_index_Ok (x : Q) (l : list Q) (i : Z) :
  py_index x l = Ok i ->
  0 <= i /\
  (exists y, l !! Z.to_nat i = Some y /\ Qeq_bool y x = true) /\
  (forall (j : nat) y, (j < Z.to_nat i)%nat -> l !! j = Some y ->
                       Qeq_bool y x = false).
Proof.
  revert i. induction l as [|y l IH]; intros i; simpl; [discriminate|].
  destruct (Qeq_bool y x) eqn:Hy.
  - intros [= <-]. split; [lia|]. split; [exists y; auto|].
    intros j y' Hj. simpl in Hj. lia.
  - destruct (py_index x l) as [i'|] eqn:Hi; [|discriminate].
    intros [= <-]. destruct (IH i' eq_refl) as (Hi0 & (y0 & Hl & Hy0) & Hfirst).
    split; [lia|]. split.
    + exists y0. split; [|exact Hy0].
      replace (Z.to_nat (Z.succ i')) with (S (Z.to_nat i')) by lia. exact Hl.
    + intros [|j] y' Hj Hl'; simpl in Hl'.
      * by injection Hl' as <-.
      * apply (Hfirst j); [lia|exact Hl'].
Qed.

Lemma py_index_found (x : Q) (l : list Q) (k : nat) (y : Q) :
  l !! k = Some y -> Qeq_bool y x = true ->
  exists i, py_index x l = Ok i /\ 0 <= i <= Z.of_nat k.
Proof.
  revert k. induction l as [|z l IH]; intros k Hk Hy; [done|].
  simpl. destruct (Qeq_bool z x) eqn:Hz.
  - exists 0. split; [reflexivity|lia].
  - destruct k as [|k]; simpl in Hk.
    + injection Hk as ->. congruence.
    + destruct (IH k Hk Hy) as (i & -> & Hi). exists (Z.succ i). split; [reflexivity|lia].
Qed.

(** On a list of pairwise different entries, [index] finds the position
    the entry was taken from. *)
Lemma py_index_injective (f : Z -> Q) (m k : Z) :
  (forall i j, 0 <= i < m -> 0 <= j < m -> (f i == f j)%Q -> i = j) ->
  0 <= k < m ->
  py_index (f k) (f <$> seqZ 0 m) = Ok k.
Proof.
  intros Hinj Hk.
  destruct (py_index_found (f k) (f <$> seqZ 0 m) (Z.to_nat k) (f k))
    as (i & Hi & Hik).
  - rewrite lookup_fmap_seqZ. rewrite decide_True by lia. do 2 f_equal. lia.
  - apply Qeq_bool_iff. reflexivity.
  - rewrite Hi. f_equal.
    destruct (py_index_Ok _ _ _ Hi) as (Hi0 & (y & Hl & Hy) & _).
    rewrite lookup_fmap_seqZ in Hl. case_decide; [|discriminate].
    injection Hl as <-. apply Qeq_bool_iff in Hy.
    apply Hinj in Hy; lia.
Qed.

(** On a list whose entries all compare equal, [index] answers [0]. *)
Lemma py_index_constant (f : Z -> Q) (m : Z) (x : Q) :
  (forall i, 0 <= i < m -> (f i == x)%Q) -> 0 < m ->
  py_index x (f <$> seqZ 0 m) = Ok 0.
Proof.
  intros Hc Hm. rewrite seqZ_cons by lia. simpl.
  rewrite (proj2 (Qeq_bool_iff (f 0) x)); [reflexivity|]. apply Hc. lia.
Qed.

(** A run of [w] consecutive bin indices from [lo]. *)
Lemma elem_of_run (lo w x : Z) :
  x ∈ (list_to_set (seqZ lo w) : gset Z) <-> lo <= x < lo + w.
Proof. rewrite elem_of_list_to_set, elem_of_seqZ. lia. Qed.

Lemma foldr_min_spec (x : Z) (xs : list Z) :
  foldr Z.min x xs ∈ x :: xs /\ forall y, y ∈ x :: xs -> foldr Z.min x xs <= y.
Proof.
  induction xs as [|z xs [IHin IHle]]; simpl.
  - split; [rewrite elem_of_cons; auto|].
    intros y Hy%list_elem_of_singleton. lia.
  - split.
    + rewrite elem_of_cons in IHin. rewrite !elem_of_cons.
      destruct (Z.min_spec z (foldr Z.min x xs)) as [[_ ->]|[_ ->]]; tauto.
    + intros y Hy. rewrite !elem_of_cons in Hy.
      assert (Hx : x ∈ x :: xs) by (rewrite elem_of_cons; auto).
      destruct Hy as [->|[->|Hy]].
      * specialize (IHle x Hx). lia.
      * lia.
      * assert (Hy' : y ∈ x :: xs) by (rewrite elem_of_cons; auto).
        specialize (IHle y Hy'). lia.
Qed.

Lemma foldr_max_spec (x : Z) (xs : list Z) :
  foldr Z.max x xs ∈ x :: xs /\ forall y, y ∈ x :: xs -> y <= foldr Z.max x xs.
Proof.
  induction xs as [|z xs [IHin IHle]]; simpl.
  - split; [rewrite elem_of_cons; auto|].
    intros y Hy%list_elem_of_singleton. lia.
  - split.
    + rewrite elem_of_cons in IHin. rewrite !elem_of_cons.
      destruct (Z.max_spec z (foldr Z.max x xs)) as [[_ ->]|[_ ->]]; tauto.
    + intros y Hy. rewrite !elem_of_cons in Hy.
      assert (Hx : x ∈ x :: xs) by (rewrite elem_of_cons; auto).
      destruct Hy as [->|[->|Hy]].
      * specialize (IHle x Hx). lia.
      * lia.
      * assert (Hy' : y ∈ x :: xs) by (rewrite elem_of_cons; auto).
        specialize (IHle y Hy'). lia.
Qed.

Lemma py_min_run (lo w : Z) :
  0 < w -> py_min (list_to_set (seqZ lo w)) = Ok lo.
Proof.
  intros Hw. unfold py_min.
  destruct (elements _) as [|x xs] eqn:He.
  - assert (lo ∈ elements (list_to_set (seqZ lo w) : gset Z)) as Hin
      by (apply elem_of_elements, elem_of_run; lia).
    rewrite He in Hin. set_solver.
  - f_equal. destruct (foldr_min_spec x xs) as [Hin Hle].
    rewrite <- He in Hin, Hle.
    apply elem_of_elements, elem_of_run in Hin.
    specialize (Hle lo). rewrite elem_of_elements, elem_of_run in Hle. lia.
Qed.

Lemma py_max_run (lo w : Z) :
  0 < w -> py_max (list_to_set (seqZ lo w)) = Ok (lo + w - 1).
Proof.
  intros Hw. unfold py_max.
  destruct (elements _) as [|x xs] eqn:He.
  - assert (lo ∈ elements (list_to_set (seqZ lo w) : gset Z)) as Hin
      by (apply elem_of_elements, elem_of_run; lia).
    rewrite He in Hin. set_solver.
  - f_equal. destruct (foldr_max_spec x xs) as [Hin Hle].
    rewrite <- He in Hin, Hle.
    apply elem_of_elements, elem_of_run in Hin.
    specialize (Hle (lo + w - 1)). rewrite elem_of_elements, elem_of_run in Hle. lia.
Qed.

(** ** The grid *)

Lemma inject_Z_eq_0 (n : Z) : (inject_Z n == 0)%Q -> n = 0.
Proof. unfold Qeq. simpl. lia. Qed.

Section Grid.
Variables (channel_bandwidth : Q) (n_bins : Z).

Local Abbreviation bw := (bin_bandwidth channel_bandwidth n_bins).

Lemma bin_bandwidth_nonzero :
  ~ (channel_bandwidth == 0)%Q -> n_bins <> 0 -> ~ (bw == 0)%Q.
Proof.
  intros Hcb Hn Hbw. apply Hcb.
  assert (Hn' : ~ (inject_Z n_bins == 0)%Q)
    by (intros H; apply Hn, inject_Z_eq_0, H).
  rewrite <- (Qmult_div_r channel_bandwidth (inject_Z n_bins) Hn').
  unfold bin_bandwidth in Hbw. rewrite Hbw. ring.
Qed.

Lemma bin_bandwidth_zero : (channel_bandwidth == 0)%Q -> (bw == 0)%Q.
Proof. intros Hcb. unfold bin_bandwidth. rewrite Hcb. reflexivity. Qed.

Lemma scaled_index_inj (i j : Z) :
  ~ (bw == 0)%Q -> (inject_Z i * bw == inject_Z j * bw)%Q -> i = j.
Proof.
  intros Hbw H.
  assert (H0 : ((inject_Z i - inject_Z j) * bw == 0)%Q)
    by (ring_simplify; rewrite H; ring).
  apply Qmult_integral in H0 as [H0|H0]; [|contradiction].
  apply inject_Z_injective. lra.
Qed.

(** With a non-zero bandwidth the grid frequencies are pairwise
    different, so [index] resolves a frequency to the position it was
    drawn from. *)
Lemma bin_edges_index (k : Z) :
  ~ (channel_bandwidth == 0)%Q -> 0 <= k <= n_bins -> n_bins <> 0 ->
  py_index (inject_Z k * bw - channel_bandwidth / 2)%Q
    (bin_edges channel_bandwidth n_bins) = Ok k.
Proof.
  intros Hcb Hk Hn. unfold bin_edges, py_range.
  apply (py_index_injective
           (fun i => (inject_Z i * bw - channel_bandwidth / 2)%Q)); [|lia].
  intros i j _ _ H. apply scaled_index_inj; [by apply bin_bandwidth_nonzero|].
  lra.
Qed.

Lemma bin_centers_index (k : Z) :
  ~ (channel_bandwidth == 0)%Q -> 0 <= k < n_bins ->
  py_index (inject_Z k * bw + bw / 2 - channel_bandwidth / 2)%Q
    (bin_centers channel_bandwidth n_bins) = Ok k.
Proof.
  intros Hcb Hk. unfold bin_centers, py_range.
  apply (py_index_injective
           (fun i => (inject_Z i * bw + bw / 2 - channel_bandwidth / 2)%Q));
    [|lia].
  intros i j _ _ H.
  apply scaled_index_inj; [apply bin_bandwidth_nonzero; [done|lia]|].
  lra.
Qed.

(** With a zero bandwidth every grid frequency is [0], and [index]
    resolves each of them to position [0]. *)
Lemma bin_edges_index_zero (k : Z) :
  (channel_bandwidth == 0)%Q -> 0 <= n_bins ->
  py_index (inject_Z k * bw - channel_bandwidth / 2)%Q
    (bin_edges channel_bandwidth n_bins) = Ok 0.
Proof.
  intros Hcb Hn. unfold bin_edges, py_range.
  apply (py_index_constant
           (fun i => (inject_Z i * bw - channel_bandwidth / 2)%Q)); [|lia].
  intros i _. rewrite (bin_bandwidth_zero Hcb), Hcb. ring.
Qed.

Lemma bin_centers_index_zero (k : Z) :
  (channel_bandwidth == 0)%Q -> 0 < n_bins ->
  py_index (inject_Z k * bw + bw / 2 - channel_bandwidth / 2)%Q
    (bin_centers channel_bandwidth n_bins) = Ok 0.
Proof.
  intros Hcb Hn. unfold bin_centers, py_range.
  apply (py_index_constant
           (fun i => (inject_Z i * bw + bw / 2 - channel_bandwidth / 2)%Q));
    [|lia].
  intros i _. rewrite (bin_bandwidth_zero Hcb), Hcb. field.
Qed.

(** The candidate centre frequencies, as positions of the grid. *)
Lemma valid_edges_eq (width : Z) :
  0 <= width ->
  valid_edges channel_bandwidth n_bins width =
  (fun i => (inject_Z i * bw - channel_bandwidth / 2)%Q)
    <$> seqZ (Z.quot width 2) (n_bins - 2 * Z.quot width 2).
Proof.
  intros Hw. unfold valid_edges, bin_edges, py_range.
  assert (0 <= Z.quot width 2) by (apply Z.quot_pos; lia).
  rewrite py_slice_fmap_seqZ by lia. do 2 f_equal. lia.
Qed.

Lemma valid_centers_eq (width : Z) :
  0 <= width ->
  valid_centers channel_bandwidth n_bins width =
  (fun i => (inject_Z i * bw + bw / 2 - channel_bandwidth / 2)%Q)
    <$> seqZ (Z.quot width 2) (n_bins - 2 * Z.quot width 2).
Proof.
  intros Hw. unfold valid_centers, bin_centers, py_range.
  assert (0 <= Z.quot width 2) by (apply Z.quot_pos; lia).
  rewrite py_slice_fmap_seqZ by lia. do 2 f_equal. lia.
Qed.

End Grid.

Lemma smallest_double_pos : (0 < smallest_double)%Q.
Proof. reflexivity. Qed.

(** A bin bandwidth that is no smaller than the smallest double comes
    from a channel bandwidth that is not zero. *)
Lemma bandwidth_not_zero (channel_bandwidth : Q) (n_bins : Z) :
  (smallest_double <= Qabs (bin_bandwidth channel_bandwidth n_bins))%Q ->
  ~ (channel_bandwidth == 0)%Q.
Proof.
  intros Hbw Hcb. apply (bin_bandwidth_zero _ n_bins) in Hcb.
  rewrite Hcb in Hbw. change (Qabs 0) with 0%Q in Hbw.
  pose proof smallest_double_pos. lra.
Qed.

(** ** Draws *)

Section Draws.
Context {G : Type} `{RNG : PyRandom G}.

Lemma bind_Ok {A B : Type} (m : Rand G A) (k : A -> Rand G B) (g : G) b g' :
  bind m k g = Ok (b, g') ->
  exists a g1, m g = Ok (a, g1) /\ k a g1 = Ok (b, g').
Proof.
  unfold bind. destruct (m g) as [[a g1]|e]; [|discriminate].
  intros H. exists a, g1. auto.
Qed.

Lemma lift_Ok {A : Type} (r : result A) (g : G) a g' :
  lift r g = Ok (a, g') -> r = Ok a /\ g' = g.
Proof. unfold lift. destruct r; [|discriminate]. by intros [= -> ->]. Qed.

Lemma ret_Ok {A : Type} (x : A) (g : G) a g' :
  ret x g = Ok (a, g') -> a = x /\ g' = g.
Proof. unfold ret. by intros [= -> ->]. Qed.

Lemma randint_Ok (a b : Z) (g : G) x g' :
  randint a b g = Ok (x, g') ->
  a <= x <= b /\ rnd_draws g' = S (rnd_draws g).
Proof.
  unfold randint. destruct (Z.ltb_spec b a) as [|Hab]; [discriminate|].
  pose proof (rnd_below_range (b - a + 1) g ltac:(lia)) as Hr.
  pose proof (rnd_below_draws (b - a + 1) g) as Hd.
  destruct (rnd_below (b - a + 1) g) as [k g1]. simpl in *.
  intros [= <- <-]. split; [lia|exact Hd].
Qed.


Lemma uniform_Ok (a b : Q) (g : G) x g' :
  uniform a b g = Ok (x, g') ->
  (exists u, (0 <= u)%Q /\ (u < 1)%Q /\ x = (a + (b - a) * u)%Q) /\
  rnd_draws g' = S (rnd_draws g).
Proof.
  unfold uniform.
  pose proof (rnd_random_range g) as [Hr0 Hr1].
  pose proof (rnd_random_draws g) as Hd.
  destruct (rnd_random g) as [u g1]. simpl in *.
  intros [= <- <-]. split; [exists u; auto|exact Hd].
Qed.


Lemma choice_Ok {A : Type} (seq : list A) (g : G) x g' :
  choice seq g = Ok (x, g') ->
  (exists k : nat, seq !! k = Some x) /\ rnd_draws g' = S (rnd_draws g).
Proof.
  unfold choice. destruct seq as [|y seq]; [discriminate|].
  pose proof (rnd_below_draws (Z.of_nat (length (y :: seq))) g) as Hd.
  destruct (rnd_below _ g) as [k g1]. simpl in Hd.
  destruct (_ !! Z.to_nat k) as [z|] eqn:Hz; [|discriminate].
  intros [= <- <-]. split; [eauto|exact Hd].
Qed.


Lemma choice_empty {A : Type} (g : G) : choice (@nil A) g = Raise IndexError.
Proof. reflexivity. Qed.

End Draws.

(** Inversion of a successful monadic computation. *)
Ltac rand_inv H :=
  lazymatch type of H with
  | bind _ _ _ = Ok _ =>
      let a := fresh "a" in let g := fresh "g" in
      let H1 := fresh "Hstep" in let H2 := fresh "Hrest" in
      apply bind_Ok in H as (a & g & H1 & H2)
  | lift _ _ = Ok _ =>
      let E := fresh "Hval" in apply lift_Ok in H as [E ->]
  | ret _ _ = Ok _ =>
      let E := fresh "Hval" in apply ret_Ok in H as [E ->]
  end.

(** [lia] extended with the defining equations of [/], [mod] and [quot]. *)
Ltac lia_div := Z.to_euclidean_division_equations; lia.

Section Candidate.
Context {G : Type} `{RNG : PyRandom G}.
Variables (channel_bandwidth : Q) (n_bins : Z).
Variables (min_snr_db max_snr_db : Q) (max_signal_bins : Z).

Local Abbreviation candidate' :=
  (candidate channel_bandwidth n_bins min_snr_db max_snr_db max_signal_bins).

(** Lines 127-134 and 141-148: draw a centre among [valid], resolve it
    in [grid], span [w] bins from [h] below the resolved position. *)
Lemma draw_center_Ok (grid valid : list Q) (f : Z -> Q) (h w len : Z)
    (g : G) c occ g2 :
  valid = f <$> seqZ h len ->
  bind (choice valid)
    (fun center_freq =>
       bind (lift (py_index center_freq grid))
         (fun ind =>
            ret (center_freq,
                 (list_to_set ((fun x => ind - h + x) <$> py_range w)
                  : gset Z)))) g = Ok (c, occ, g2) ->
  exists k ind,
    h <= k < h + len /\ c = f k /\ py_index (f k) grid = Ok ind /\
    occ = list_to_set (seqZ (ind - h) w) /\
    rnd_draws g2 = S (rnd_draws g).
Proof.
  intros -> H.
  rand_inv H. apply choice_Ok in Hstep as [(i & Hi) Hd].
  rand_inv Hrest. rand_inv Hstep. rand_inv Hrest0.
  injection Hval0 as -> ->.
  rewrite lookup_fmap_seqZ in Hi. case_decide; [|discriminate].
  injection Hi as <-.
  exists (h + Z.of_nat i), a0. repeat split; try lia; try done.
  unfold py_range.
  change (fun x => a0 - h + x) with (Z.add (a0 - h)).
  rewrite fmap_add_seqZ. do 2 f_equal. lia.
Qed.

(** What every successfully drawn candidate looks like. *)
Lemma candidate_Ok (g : G) s g' :
  candidate' g = Ok (s, g') ->
  exists lo u,
    1 <= Signal.n_bins s <= max_signal_bins /\
    1 <= n_bins /\
    Signal.occupied_bins s = list_to_set (seqZ lo (Signal.n_bins s)) /\
    Signal.guard_bins s =
      {[ (lo - 1) mod n_bins; (lo + Signal.n_bins s) mod n_bins ]}
        ∩ valid_bins n_bins /\
    placed channel_bandwidth n_bins lo (Signal.n_bins s) /\
    ((0 <= u)%Q /\ (u < 1)%Q /\
     Signal.snr s = (min_snr_db + (max_snr_db - min_snr_db) * u)%Q) /\
    Signal.modulation_type s = None /\
    rnd_draws g' = (3 + rnd_draws g)%nat.
Proof.
  unfold candidate. intros H.
  rand_inv H. rename a into w. apply randint_Ok in Hstep as [Hw Hd1].
  rand_inv Hrest. rename a into snr.
  apply uniform_Ok in Hstep as [(u & Hu0 & Hu1 & Hsnr) Hd2].
  rand_inv Hrest0. destruct a as [center occ].
  assert (Hh : Z.quot w 2 = w / 2) by (apply Z.quot_div_nonneg; lia).
  assert (exists lo, occ = list_to_set (seqZ lo w) /\ 1 <= n_bins /\
                     placed channel_bandwidth n_bins lo w /\
                     rnd_draws g2 = S (rnd_draws g1))
    as (lo & -> & Hn & Hplaced & Hd3).
  { unfold placed. destruct (Z.eqb_spec (w mod 2) 0) as [Heven|Hodd].
    - eapply draw_center_Ok in Hstep
        as (k & ind & Hk & _ & Hind & -> & Hd3);
        [|apply valid_edges_eq; lia].
      cbv beta in Hind.
      exists (ind - Z.quot w 2). split; [done|]. split; [lia_div|].
      split; [|done].
      destruct (Qeq_bool channel_bandwidth 0) eqn:Hcb.
      + apply Qeq_bool_iff in Hcb.
        rewrite bin_edges_index_zero in Hind by (done || lia_div).
        injection Hind as <-. lia_div.
      + apply Qeq_bool_neq in Hcb.
        rewrite bin_edges_index in Hind by (done || lia_div).
        injection Hind as <-. lia_div.
    - eapply draw_center_Ok in Hstep
        as (k & ind & Hk & _ & Hind & -> & Hd3);
        [|apply valid_centers_eq; lia].
      cbv beta in Hind.
      exists (ind - Z.quot w 2). split; [done|]. split; [lia_div|].
      split; [|done].
      destruct (Qeq_bool channel_bandwidth 0) eqn:Hcb.
      + apply Qeq_bool_iff in Hcb.
        rewrite bin_centers_index_zero in Hind by (done || lia_div).
        injection Hind as <-. lia_div.
      + apply Qeq_bool_neq in Hcb.
        rewrite bin_centers_index in Hind by (done || lia_div).
        injection Hind as <-. lia_div. }
  rand_inv Hrest. rand_inv Hstep0.
  rewrite py_min_run in Hval by lia. injection Hval as <-.
  rand_inv Hrest0. rand_inv Hstep0.
  unfold py_mod in Hval. destruct (Z.eqb_spec n_bins 0); [discriminate|].
  injection Hval as <-.
  rand_inv Hrest. rand_inv Hstep0.
  rewrite py_max_run in Hval by lia. injection Hval as <-.
  rand_inv Hrest0. rand_inv Hstep0.
  unfold py_mod in Hval. destruct (Z.eqb_spec n_bins 0); [done|].
  injection Hval as <-.
  rand_inv Hrest. subst s. simpl.
  exists lo, u. repeat split; try done; try lia.
  by replace (lo + w - 1 + 1) with (lo + w) by lia.
Qed.

End Candidate.

(** ** The placement loop *)

Section Loop.
Context {G : Type} `{RNG : PyRandom G}.
Variables (channel_bandwidth : Q) (n_bins n_signals : Z).
Variables (min_snr_db max_snr_db : Q) (signal_types : list string).
Variables (max_signal_bins max_tries : Z).

Local Abbreviation candidate' :=
  (candidate channel_bandwidth n_bins min_snr_db max_snr_db max_signal_bins).
Local Abbreviation attempt' :=
  (attempt channel_bandwidth n_bins min_snr_db max_snr_db signal_types
     max_signal_bins).
Local Abbreviation loop' :=
  (placement_loop channel_bandwidth n_bins n_signals min_snr_db max_snr_db
     signal_types max_signal_bins max_tries).

Lemma overlaps_false (c : Signal.t (gset Z)) signals :
  overlaps c signals = false <->
  forall e, e ∈ signals ->
    Signal.occupied_bins c
      ∩ (Signal.occupied_bins e ∪ Signal.guard_bins e) = ∅.
Proof.
  induction signals as [|e0 signals IH]; simpl.
  - split; [|done]. intros _ e He. by apply not_elem_of_nil in He.
  - destruct (Z.ltb_spec 0 (Z.of_nat (size (Signal.occupied_bins c
      ∩ (Signal.occupied_bins e0 ∪ Signal.guard_bins e0))))) as [Hpos|Hz].
    + split; [done|]. intros H.
      specialize (H e0 ltac:(rewrite elem_of_cons; auto)).
      rewrite H, size_empty in Hpos. lia.
    + rewrite IH. assert (Hsz : size (Signal.occupied_bins c
        ∩ (Signal.occupied_bins e0 ∪ Signal.guard_bins e0)) = 0%nat) by lia.
      apply size_empty_iff, leibniz_equiv in Hsz.
      split.
      * intros H e He. rewrite elem_of_cons in He.
        destruct He as [->|He]; [exact Hsz|by apply H].
      * intros H e He. apply H. rewrite elem_of_cons. auto.
Qed.

(** One pass through the loop body: three draws make the candidate; the
    modulation type is drawn only for a candidate that passed the scan. *)
Lemma attempt_Ok signals (g : G) r g' :
  attempt' signals g = Ok (r, g') ->
  exists c g1,
    candidate' g = Ok (c, g1) /\
    match r with
    | None => overlaps c signals = true /\ g' = g1
    | Some s =>
        overlaps c signals = false /\
        exists m, choice signal_types g1 = Ok (m, g') /\
                  s = set_modulation_type m c
    end.
Proof.
  unfold attempt. intros H. rand_inv H. rename a into c.
  exists c, g0. split; [done|].
  destruct (overlaps c signals).
  - rand_inv Hrest. by subst r.
  - rand_inv Hrest. rand_inv Hrest0. subst r. eauto.
Qed.

Lemma placement_loop_step (fuel : nat) (st : loop_state G) :
  loop' (S fuel) st =
  if (Z.of_nat (length (signals_of st)) <? n_signals)
     && (tries_of st <? max_tries)
  then
    match attempt' (signals_of st) (rng_of st) with
    | Raise e => Raised e
    | Ok (None, g') =>
        loop' fuel (mkLoop (signals_of st) (tries_of st + 1) g')
    | Ok (Some signal, g') =>
        loop' fuel (mkLoop (signals_of st ++ [signal]) (tries_of st + 1) g')
    end
  else Done st.
Proof. reflexivity. Qed.

(** Invariants of the loop: a property that the initial state has and
    that both ways through the body preserve holds in every state the
    loop stops or pauses in. *)
Lemma placement_loop_invariant (P : loop_state G -> Prop) :
  (forall st g',
      Z.of_nat (length (signals_of st)) < n_signals ->
      tries_of st < max_tries ->
      attempt' (signals_of st) (rng_of st) = Ok (None, g') ->
      P st -> P (mkLoop (signals_of st) (tries_of st + 1) g')) ->
  (forall st s g',
      Z.of_nat (length (signals_of st)) < n_signals ->
      tries_of st < max_tries ->
      attempt' (signals_of st) (rng_of st) = Ok (Some s, g') ->
      P st -> P (mkLoop (signals_of st ++ [s]) (tries_of st + 1) g')) ->
  forall fuel st st',
    P st ->
    loop' fuel st = Done st' \/ loop' fuel st = Paused st' ->
    P st'.
Proof.
  intros Hrej Hacc fuel.
  induction fuel as [|fuel IH]; intros st st' HP Hrun.
  - simpl in Hrun.
    destruct (_ && _); destruct Hrun as [Hrun|Hrun];
      try discriminate; by injection Hrun as <-.
  - rewrite placement_loop_step in Hrun.
    destruct (_ && _) eqn:Hcond.
    + apply andb_true_iff in Hcond as [Hlen Htries].
      apply Z.ltb_lt in Hlen, Htries.
      destruct (attempt' _ _) as [[[s|] g']|e] eqn:Hatt.
      * eapply IH; [|exact Hrun]. by apply Hacc.
      * eapply IH; [|exact Hrun]. by apply Hrej.
      * destruct Hrun; discriminate.
    + destruct Hrun as [Hrun|Hrun]; [|discriminate].
      by injection Hrun as <-.
Qed.

(** The loop stops in a state in which its condition is false, and
    pauses in one in which it is true. *)
Lemma placement_loop_Done fuel (st st' : loop_state G) :
  loop' fuel st = Done st' ->
  ~ (Z.of_nat (length (signals_of st')) < n_signals /\
     tries_of st' < max_tries).
Proof.
  revert st. induction fuel as [|fuel IH]; intros st Hrun.
  - simpl in Hrun. destruct (_ && _) eqn:Hcond; [discriminate|].
    injection Hrun as <-. apply andb_false_iff in Hcond.
    rewrite !Z.ltb_ge in Hcond. lia.
  - rewrite placement_loop_step in Hrun.
    destruct (_ && _) eqn:Hcond.
    + destruct (attempt' _ _) as [[[s|] g']|e]; [| |discriminate];
        by eapply IH.
    + injection Hrun as <-. apply andb_false_iff in Hcond.
      rewrite !Z.ltb_ge in Hcond. lia.
Qed.

(** [tries] counts the iterations: pausing after [fuel] iterations means
    that [tries] has grown by exactly [fuel] and is still below
    [max_tries]. *)
Lemma placement_loop_Paused fuel (st st' : loop_state G) :
  loop' fuel st = Paused st' ->
  tries_of st' = tries_of st + Z.of_nat fuel /\
  tries_of st' < max_tries /\
  Z.of_nat (length (signals_of st')) < n_signals.
Proof.
  revert st. induction fuel as [|fuel IH]; intros st Hrun.
  - simpl in Hrun. destruct (_ && _) eqn:Hcond; [|discriminate].
    injection Hrun as <-. apply andb_true_iff in Hcond as [Hlen Htries].
    apply Z.ltb_lt in Hlen, Htries. lia.
  - rewrite placement_loop_step in Hrun.
    destruct (_ && _) eqn:Hcond; [|discriminate].
    destruct (attempt' _ _) as [[[s|] g']|e]; [| |discriminate];
      apply IH in Hrun; simpl in Hrun; lia.
Qed.

Lemma placement_loop_tries fuel (st st' : loop_state G) :
  loop' fuel st = Done st' ->
  tries_of st <= tries_of st' <= tries_of st + Z.of_nat fuel /\
  tries_of st' <= Z.max (tries_of st) max_tries.
Proof.
  revert st. induction fuel as [|fuel IH]; intros st Hrun.
  - simpl in Hrun. destruct (_ && _) eqn:Hcond; [discriminate|].
    injection Hrun as <-. lia.
  - rewrite placement_loop_step in Hrun.
    destruct (_ && _) eqn:Hcond.
    + apply andb_true_iff in Hcond as [Hlen Htries].
      apply Z.ltb_lt in Hlen, Htries.
      destruct (attempt' _ _) as [[[s|] g']|e]; [| |discriminate];
        apply IH in Hrun; simpl in Hrun; lia.
    + injection Hrun as <-. lia.
Qed.


End Loop.

(** ** Geometry of runs and guard bins *)

Lemma guard_below (lo n : Z) :
  0 <= lo < n -> (lo - 1) mod n = if lo =? 0 then n - 1 else lo - 1.
Proof.
  intros H. destruct (Z.eqb_spec lo 0) as [->|Hlo].
  - symmetry. apply (Z.mod_unique _ _ (-1)); lia.
  - apply Z.mod_small. lia.
Qed.

Lemma guard_above (hi n : Z) :
  0 < hi <= n -> hi mod n = if hi =? n then 0 else hi.
Proof.
  intros H. destruct (Z.eqb_spec hi n) as [->|Hhi].
  - apply Z.mod_same. lia.
  - apply Z.mod_small. lia.
Qed.

Lemma elem_of_guard (x lo w n : Z) :
  x ∈ ({[ (lo - 1) mod n; (lo + w) mod n ]} ∩ valid_bins n : gset Z) <->
  (x = (lo - 1) mod n \/ x = (lo + w) mod n) /\ 0 <= x < n.
Proof.
  unfold valid_bins, py_range.
  rewrite elem_of_intersection, elem_of_union, !elem_of_singleton,
    elem_of_list_to_set, elem_of_seqZ. lia.
Qed.

Section Separation.
Variables (channel_bandwidth : Q) (n_bins : Z).
Variables (min_snr_db max_snr_db : Q) (max_signal_bins : Z).

Local Abbreviation shaped' :=
  (shaped channel_bandwidth n_bins min_snr_db max_snr_db max_signal_bins).

(** The scan of the loop is one-sided; on signals of this shape it
    implies the other side. *)
Lemma clear_of_sym (a b : Signal.t (gset Z)) :
  shaped' a -> shaped' b -> clear_of a b -> clear_of b a.
Proof.
  intros (lo & u & Hw & Hn & Hocc & Hg & Hpl & _)
         (lo' & u' & Hw' & _ & Hocc' & Hg' & Hpl' & _) Hclear.
  unfold clear_of in *.
  assert (Hc : forall y, y ∈ Signal.occupied_bins a ->
                         y ∈ Signal.occupied_bins b
                         \/ y ∈ Signal.guard_bins b -> False).
  { intros y Hy Hy'. apply (not_elem_of_empty (C:=gset Z) y).
    rewrite <- Hclear. apply elem_of_intersection. split; [done|].
    by apply elem_of_union. }
  apply elem_of_equiv_empty_L. intros x Hx.
  apply elem_of_intersection in Hx as [Hxb Hxa].
  apply elem_of_union in Hxa.
  rewrite Hocc, Hocc', Hg, Hg' in *. clear Hocc Hocc' Hg Hg' Hclear.
  setoid_rewrite elem_of_run in Hc. setoid_rewrite elem_of_guard in Hc.
  rewrite elem_of_run in Hxb. rewrite elem_of_run, elem_of_guard in Hxa.
  unfold placed in *. destruct (Qeq_bool channel_bandwidth 0).
  - apply (Hc 0); lia.
  - pose proof (Hc x) as Hcx.
    pose proof (Hc lo) as Hclo.
    pose proof (Hc (lo + Signal.n_bins a - 1)) as Hchi.
    rewrite (guard_below lo), (guard_above (lo + _)) in Hxa by lia.
    rewrite (guard_below lo'), (guard_above (lo' + _)) in Hcx, Hclo, Hchi
      by lia.
    repeat match goal with
           | H : context [if ?c =? ?d then _ else _] |- _ =>
               destruct (Z.eqb_spec c d)
           end; lia.
Qed.

Lemma pairwise_clear_nil : pairwise_clear [].
Proof. intros i j a b _ H. by rewrite lookup_nil in H. Qed.

Lemma pairwise_clear_snoc signals (s : Signal.t (gset Z)) :
  pairwise_clear signals ->
  (forall e, e ∈ signals -> clear_of s e /\ clear_of e s) ->
  pairwise_clear (signals ++ [s]).
Proof.
  intros Hpw Hs i j a b Hij Hi Hj.
  apply lookup_snoc_Some in Hi as [[Hil Hi]|[Hil <-]];
    apply lookup_snoc_Some in Hj as [[Hjl Hj]|[Hjl <-]].
  - by eapply Hpw.
  - apply Hs. apply list_elem_of_lookup. eauto.
  - apply Hs. apply list_elem_of_lookup. eauto.
  - lia.
Qed.

End Separation.

(** ** Accepted signals *)

Section Accepted.
Context {G : Type} `{RNG : PyRandom G}.
Variables (channel_bandwidth : Q) (n_bins n_signals : Z).
Variables (min_snr_db max_snr_db : Q) (signal_types : list string).
Variables (max_signal_bins max_tries : Z).

Local Abbreviation candidate' :=
  (candidate channel_bandwidth n_bins min_snr_db max_snr_db max_signal_bins).
Local Abbreviation attempt' :=
  (attempt channel_bandwidth n_bins min_snr_db max_snr_db signal_types
     max_signal_bins).
Local Abbreviation loop' :=
  (placement_loop channel_bandwidth n_bins n_signals min_snr_db max_snr_db
     signal_types max_signal_bins max_tries).
Local Abbreviation shaped' :=
  (shaped channel_bandwidth n_bins min_snr_db max_snr_db max_signal_bins).
Local Abbreviation accepted' :=
  (accepted channel_bandwidth n_bins min_snr_db max_snr_db signal_types
     max_signal_bins).

Lemma candidate_shaped (g : G) c g' :
  candidate' g = Ok (c, g') -> shaped' c.
Proof.
  intros H. apply candidate_Ok in H
    as (lo & u & Hw & Hn & Hocc & Hg & Hpl & (Hu0 & Hu1 & Hsnr) & _).
  exists lo, u. auto 10.
Qed.

(** An appended signal is a candidate that the scan let through, with
    its modulation type drawn from [signal_types]. *)
Lemma attempt_accepted signals (g : G) s g' :
  attempt' signals g = Ok (Some s, g') ->
  accepted' s /\ forall e, e ∈ signals -> clear_of s e.
Proof.
  intros H. apply attempt_Ok in H as (c & g1 & Hc & Hov & m & Hm & ->).
  apply candidate_shaped in Hc.
  apply choice_Ok in Hm as [(k & Hk) _].
  split; [split|].
  - exact Hc.
  - exists m. split; [reflexivity|]. apply list_elem_of_lookup. eauto.
  - intros e He. unfold clear_of. simpl.
    by apply (proj1 (overlaps_false c signals) Hov).
Qed.

(** The invariant of the loop on its list of signals. *)
Lemma placement_loop_signals fuel (st st' : loop_state G) :
  Forall accepted' (signals_of st) -> pairwise_clear (signals_of st) ->
  loop' fuel st = Done st' \/ loop' fuel st = Paused st' ->
  Forall accepted' (signals_of st') /\ pairwise_clear (signals_of st').
Proof.
  intros HF Hpw Hrun.
  apply (placement_loop_invariant channel_bandwidth n_bins n_signals
           min_snr_db max_snr_db signal_types max_signal_bins max_tries
           (fun st => Forall accepted' (signals_of st)
                      /\ pairwise_clear (signals_of st)))
    with (fuel := fuel) (st := st); [| |by split|exact Hrun].
  - intros st0 g' _ _ _ HP. exact HP.
  - intros st0 s g' _ _ Hatt [HF0 Hpw0]. simpl.
    apply attempt_accepted in Hatt as [Hs Hclear].
    split.
    + apply Forall_app. split; [exact HF0|]. by apply Forall_singleton.
    + apply pairwise_clear_snoc; [exact Hpw0|].
      intros e He. split; [by apply Hclear|].
      apply (clear_of_sym channel_bandwidth n_bins min_snr_db max_snr_db
               max_signal_bins).
      * apply Hs.
      * rewrite Forall_forall in HF0. by apply HF0.
      * by apply Hclear.
Qed.

(** A returned plan is the assembly of the state the loop stopped in. *)
Lemma generate_band_plan_Returns instance_seed (w : World G) plan :
  generate_band_plan channel_bandwidth n_bins n_signals min_snr_db
    max_snr_db signal_types instance_seed max_signal_bins max_tries w
  = Returns plan ->
  n_bins <> 0 /\
  exists st,
    loop' (Z.to_nat max_tries) (initial_state instance_seed w) = Done st /\
    plan = assemble channel_bandwidth n_bins (signals_of st).
Proof.
  unfold generate_band_plan, generate_band_plan_body.
  destruct (Z.eqb_spec n_bins 0); [discriminate|].
  destruct (loop' _ _) as [st|e|st]; try discriminate.
  intros [= <-]. eauto.
Qed.

Lemma generate_band_plan_accepted instance_seed (w : World G) plan :
  generate_band_plan channel_bandwidth n_bins n_signals min_snr_db
    max_snr_db signal_types instance_seed max_signal_bins max_tries w
  = Returns plan ->
  exists signals,
    BandPlan.signals plan = to_lists <$> signals /\
    Forall accepted' signals /\ pairwise_clear signals.
Proof.
  intros H. apply generate_band_plan_Returns in H as (_ & st & Hrun & ->).
  exists (signals_of st). split; [reflexivity|].
  eapply placement_loop_signals; [| |left; exact Hrun].
  - constructor.
  - apply pairwise_clear_nil.
Qed.

End Accepted.

(** ** Runs of the loop *)

Section Runs.
Context {G : Type} `{RNG : PyRandom G}.
Variables (channel_bandwidth : Q) (n_bins n_signals : Z).
Variables (min_snr_db max_snr_db : Q) (signal_types : list string).
Variables (max_signal_bins max_tries : Z).

Local Abbreviation candidate' :=
  (candidate channel_bandwidth n_bins min_snr_db max_snr_db max_signal_bins).
Local Abbreviation attempt' :=
  (attempt channel_bandwidth n_bins min_snr_db max_snr_db signal_types
     max_signal_bins).
Local Abbreviation loop' :=
  (placement_loop channel_bandwidth n_bins n_signals min_snr_db max_snr_db
     signal_types max_signal_bins max_tries).

(** A paused run resumes where it stopped. *)
Lemma placement_loop_resume (k j : nat) (st st_k : loop_state G) :
  loop' k st = Paused st_k -> loop' (k + j) st = loop' j st_k.
Proof.
  revert st. induction k as [|k IH]; intros st Hrun.
  - simpl in Hrun. destruct (_ && _); [|discriminate].
    by injection Hrun as <-.
  - change (S k + j)%nat with (S (k + j)).
    rewrite placement_loop_step in Hrun |- *.
    destruct (_ && _); [|discriminate].
    destruct (attempt' _ _) as [[[s|] g']|e]; [| |discriminate];
      by apply IH.
Qed.

(** The list of signals only grows, and only at its end. *)
Lemma placement_loop_prefix fuel (st st' : loop_state G) :
  loop' fuel st = Done st' \/ loop' fuel st = Paused st' ->
  signals_of st `prefix_of` signals_of st'.
Proof.
  intros Hrun.
  apply (placement_loop_invariant channel_bandwidth n_bins n_signals
           min_snr_db max_snr_db signal_types max_signal_bins max_tries
           (fun st0 => signals_of st `prefix_of` signals_of st0))
    with (fuel := fuel) (st := st); [| |done|exact Hrun].
  - intros st0 g' _ _ _ HP. exact HP.
  - intros st0 s g' _ _ _ HP. simpl. by apply prefix_app_r.
Qed.

(** The list never grows beyond the requested number of signals. *)
Lemma placement_loop_length fuel (st st' : loop_state G) :
  Z.of_nat (length (signals_of st))
    <= Z.max 0 n_signals ->
  loop' fuel st = Done st' \/ loop' fuel st = Paused st' ->
  Z.of_nat (length (signals_of st')) <= Z.max 0 n_signals.
Proof.
  intros Hlen Hrun.
  apply (placement_loop_invariant channel_bandwidth n_bins n_signals
           min_snr_db max_snr_db signal_types max_signal_bins max_tries
           (fun st0 => Z.of_nat (length (signals_of st0))
                       <= Z.max 0 n_signals))
    with (fuel := fuel) (st := st); [| |done|exact Hrun].
  - intros st0 g' _ _ _ HP. exact HP.
  - intros st0 s g' Hlt _ _ _. simpl. rewrite length_app. simpl. lia.
Qed.



End Runs.

(** ** The output boundary *)

Lemma Sorted_seqZ (lo w : Z) : Sorted Z.le (seqZ lo w).
Proof.
  remember (Z.to_nat w) as k eqn:Hk. revert lo w Hk.
  induction k as [|k IH]; intros lo w Hk.
  - rewrite seqZ_nil by lia. constructor.
  - rewrite seqZ_cons by lia. constructor.
    + apply IH. lia.
    + destruct (decide (0 < Z.pred w)).
      * rewrite seqZ_cons by lia. constructor. lia.
      * rewrite seqZ_nil by lia. constructor.
Qed.

(** Whatever order [list(s)] lists a run in, sorting gives the run. *)
Lemma merge_sort_elements_run (lo w : Z) :
  merge_sort Z.le (elements (list_to_set (seqZ lo w) : gset Z)) = seqZ lo w.
Proof.
  apply (Sorted_unique Z.le).
  - apply Sorted_merge_sort. apply _.
  - apply Sorted_seqZ.
  - rewrite merge_sort_Permutation.
    apply elements_list_to_set, NoDup_seqZ.
Qed.

Lemma length_elements_run (lo w : Z) :
  length (elements (list_to_set (seqZ lo w) : gset Z)) = Z.to_nat w.
Proof.
  rewrite (Permutation_length (elements_list_to_set (seqZ lo w) (NoDup_seqZ lo w))).
  apply length_seqZ.
Qed.

(** The SNR lies between the two bounds, whichever is larger. *)
Lemma uniform_between (a b u : Q) :
  (0 <= u)%Q -> (u < 1)%Q ->
  ((a <= b -> a <= a + (b - a) * u /\ a + (b - a) * u <= b) /\
   (b <= a -> b <= a + (b - a) * u /\ a + (b - a) * u <= a))%Q.
Proof. intros H0 H1. split; intros Hab; split; nra. Qed.

Lemma placed_inside (channel_bandwidth : Q) (n_bins lo w : Z) :
  ~ (channel_bandwidth == 0)%Q ->
  placed channel_bandwidth n_bins lo w -> 0 <= lo /\ lo + w <= n_bins.
Proof.
  intros Hcb. unfold placed.
  destruct (Qeq_bool channel_bandwidth 0) eqn:E; [|done].
  apply Qeq_bool_iff in E. contradiction.
Qed.

(** ** Configurations under which no draw fails *)


Section Totality.
Context {G : Type} `{RNG : PyRandom G}.
Variables (channel_bandwidth : Q) (n_bins n_signals : Z).
Variables (min_snr_db max_snr_db : Q) (signal_types : list string).
Variables (max_signal_bins max_tries : Z).

Local Abbreviation candidate' :=
  (candidate channel_bandwidth n_bins min_snr_db max_snr_db max_signal_bins).
Local Abbreviation attempt' :=
  (attempt channel_bandwidth n_bins min_snr_db max_snr_db signal_types
     max_signal_bins).
Local Abbreviation loop' :=
  (placement_loop channel_bandwidth n_bins n_signals min_snr_db max_snr_db
     signal_types max_signal_bins max_tries).









End Totality.

(** ** Properties of [generate_band_plan] *)

Section Results.
Context {G : Type} `{RNG : PyRandom G}.
Variables (channel_bandwidth : Q) (n_bins n_signals : Z).
Variables (min_snr_db max_snr_db : Q) (signal_types : list string).
Variables (instance_seed : option Z) (max_signal_bins max_tries : Z).

Local Abbreviation loop' :=
  (placement_loop channel_bandwidth n_bins n_signals min_snr_db max_snr_db
     signal_types max_signal_bins max_tries).
Local Abbreviation attempt' :=
  (attempt channel_bandwidth n_bins min_snr_db max_snr_db signal_types
     max_signal_bins).
Local Abbreviation candidate' :=
  (candidate channel_bandwidth n_bins min_snr_db max_snr_db max_signal_bins).

(** C1. In every returned plan, two signals at different positions of
    the list share no occupied bin, and no occupied bin of the one is an
    occupied or a guard bin of the other -- in both directions, although
    the loop only scans the new candidate against the signals accepted
    before it. *)
Theorem occupied_bins_disjoint (w : World G) plan :
  generate_band_plan channel_bandwidth n_bins n_signals min_snr_db
    max_snr_db signal_types instance_seed max_signal_bins max_tries w
  = Returns plan ->
  forall (i j : nat) a b,
    i <> j ->
    BandPlan.signals plan !! i = Some a ->
    BandPlan.signals plan !! j = Some b ->
    no_common_bin (Signal.occupied_bins a) (Signal.occupied_bins b) /\
    no_common_bin (Signal.occupied_bins a)
      (Signal.occupied_bins b ++ Signal.guard_bins b).
Proof.
  intros H i j a b Hij Ha Hb.
  apply generate_band_plan_accepted in H as (signals & Hsig & _ & Hpw).
  rewrite Hsig in Ha, Hb.
  apply list_lookup_fmap_Some in Ha as (a0 & -> & Ha).
  apply list_lookup_fmap_Some in Hb as (b0 & -> & Hb).
  pose proof (Hpw i j a0 b0 Hij Ha Hb) as Hclear. unfold clear_of in Hclear.
  assert (Hc : forall x, x ∈ Signal.occupied_bins a0 ->
                         x ∈ Signal.occupied_bins b0
                         \/ x ∈ Signal.guard_bins b0 -> False).
  { intros x Hx Hx'. apply (not_elem_of_empty (C:=gset Z) x).
    rewrite <- Hclear. apply elem_of_intersection. split; [done|].
    by apply elem_of_union. }
  unfold no_common_bin; simpl. split; intros x Hx Hx'.
  - apply elem_of_elements in Hx, Hx'. eauto.
  - apply elem_of_app in Hx'. rewrite !elem_of_elements in Hx'.
    apply elem_of_elements in Hx. eauto.
Qed.

(** C2, for magnitudes that the doubles of the program can hold.  Under
    [|channel_bandwidth / n_bins| >= 2^-1074] (so that [bin_bandwidth]
    is not zero, also after rounding), [n_bins >= 1],
    [1 <= max_signal_bins <= n_bins], [min_snr_db <= max_snr_db] with
    [max_snr_db - min_snr_db] no larger than the largest double, and a
    non-empty [signal_types], every signal of a returned plan has: its
    occupied bins, sorted, equal to the run of [n_bins s] consecutive
    indices from some [lo], all inside [0, n_bins); its guard bins inside
    [0, n_bins); its SNR in [min_snr_db, max_snr_db]; its modulation type
    among [signal_types]. *)
Theorem signal_well_formed (w : World G) plan :
  (smallest_double <= Qabs (bin_bandwidth channel_bandwidth n_bins))%Q ->
  1 <= n_bins ->
  1 <= max_signal_bins <= n_bins ->
  (min_snr_db <= max_snr_db)%Q ->
  (max_snr_db - min_snr_db <= largest_double)%Q ->
  signal_types <> [] ->
  generate_band_plan channel_bandwidth n_bins n_signals min_snr_db
    max_snr_db signal_types instance_seed max_signal_bins max_tries w
  = Returns plan ->
  forall s, s ∈ BandPlan.signals plan ->
    well_formed_output n_bins max_signal_bins min_snr_db max_snr_db
      signal_types s.
Proof.
  intros Hbw _ _ Hsnr _ _ H s Hs. unfold well_formed_output.
  pose proof (bandwidth_not_zero _ _ Hbw) as Hcb.
  apply generate_band_plan_accepted in H as (signals & Hsig & HF & _).
  rewrite Hsig in Hs. apply list_elem_of_fmap in Hs as (s0 & -> & Hs0).
  rewrite Forall_forall in HF. specialize (HF s0 Hs0).
  destruct HF as [(lo & u & Hw & Hn & Hocc & Hg & Hpl & Hu0 & Hu1 & Hu) Hm].
  simpl. rewrite Hocc, Hg.
  apply (placed_inside _ _ _ _ Hcb) in Hpl.
  destruct (uniform_between min_snr_db max_snr_db u Hu0 Hu1) as [Hb _].
  repeat split; try lia.
  - exists lo. split; [apply merge_sort_elements_run|lia].
  - apply length_elements_run.
  - apply elem_of_elements, elem_of_guard in H. lia.
  - apply elem_of_elements, elem_of_guard in H. lia.
  - rewrite Hu. by apply Hb.
  - rewrite Hu. by apply Hb.
  - exact Hm.
Qed.


(** C6. With a seed, the outcome does not depend on the state the
    process is in when the call starts: any two calls with the same
    parameters and the same seed end alike, plan for plan and field for
    field. *)
Theorem seeded_run_deterministic (seed : Z) (w1 w2 : World G) :
  generate_band_plan channel_bandwidth n_bins n_signals min_snr_db
    max_snr_db signal_types (Some seed) max_signal_bins max_tries w1
  = generate_band_plan channel_bandwidth n_bins n_signals min_snr_db
      max_snr_db signal_types (Some seed) max_signal_bins max_tries w2.
Proof.
  unfold generate_band_plan, generate_band_plan_body.
  assert (initial_state (Some seed) w1 = initial_state (Some seed) w2)
    as -> by reflexivity.
  reflexivity.
Qed.


(** C8, as the code has it.  A pass through the loop body makes three
    draws (width, SNR, centre) for the candidate and scans the accepted
    signals; only a candidate that passed the scan gets a modulation
    type, from a fourth draw.  A rejected attempt thus consumes three
    draws and an accepted one four. *)
Theorem attempt_draws signals (g : G) r g' :
  attempt' signals g = Ok (r, g') ->
  match r with
  | None =>
      rnd_draws g' = (3 + rnd_draws g)%nat /\
      exists c, candidate' g = Ok (c, g') /\
                Signal.modulation_type c = None /\
                overlaps c signals = true
  | Some s =>
      rnd_draws g' = (4 + rnd_draws g)%nat /\
      exists c g1 m,
        candidate' g = Ok (c, g1) /\
        Signal.modulation_type c = None /\
        overlaps c signals = false /\
        choice signal_types g1 = Ok (m, g') /\
        s = set_modulation_type m c
  end.
Proof.
  intros H. apply attempt_Ok in H as (c & g1 & Hc & Hr).
  pose proof (candidate_Ok _ _ _ _ _ _ _ _ Hc)
    as (lo & u & _ & _ & _ & _ & _ & _ & Hnone & Hd).
  destruct r as [s|].
  - destruct Hr as (Hov & m & Hm & ->).
    pose proof (choice_Ok _ _ _ _ Hm) as [_ Hd'].
    split; [lia|]. exists c, g1, m. auto.
  - destruct Hr as [Hov ->]. split; [exact Hd|]. exists c. auto.
Qed.

(** C9, for a requested count that is not negative.  A returned plan
    has [freq_span = channel_bandwidth], the [n_bins] of the call, and
    [n_signals] equal to the length of its [signals], which is at least
    0 and, when [n_signals >= 0] was requested, at most [n_signals]; its
    [signals] are those of the state the loop stopped in, and the list
    the loop held after any number of iterations is a prefix of it: the
    signals stand in the order they were accepted in. *)
Theorem plan_assembly (w : World G) plan :
  generate_band_plan channel_bandwidth n_bins n_signals min_snr_db
    max_snr_db signal_types instance_seed max_signal_bins max_tries w
  = Returns plan ->
  BandPlan.freq_span plan = channel_bandwidth /\
  BandPlan.n_bins plan = n_bins /\
  BandPlan.n_signals plan = Z.of_nat (length (BandPlan.signals plan)) /\
  0 <= BandPlan.n_signals plan /\
  (0 <= n_signals -> BandPlan.n_signals plan <= n_signals) /\
  exists st,
    loop' (Z.to_nat max_tries) (initial_state instance_seed w) = Done st /\
    BandPlan.signals plan = to_lists <$> signals_of st /\
    forall (k : nat) st_k,
      loop' k (initial_state instance_seed w) = Paused st_k ->
      signals_of st_k `prefix_of` signals_of st.
Proof.
  intros H. apply generate_band_plan_Returns in H as (Hn & st & Hrun & ->).
  simpl. rewrite length_fmap.
  assert (Z.of_nat (length (signals_of st)) <= Z.max 0 n_signals) as Hlen.
  { eapply placement_loop_length; [|left; exact Hrun]. simpl. lia. }
  repeat split; try lia.
  exists st. repeat split; [exact Hrun|].
  intros k st_k Hk.
  pose proof (placement_loop_Paused _ _ _ _ _ _ _ _ _ _ _ Hk) as (Ht & Hlt & _).
  simpl in Ht.
  replace (Z.to_nat max_tries) with (k + (Z.to_nat max_tries - k))%nat
    in Hrun by lia.
  rewrite (placement_loop_resume _ _ _ _ _ _ _ _ _ _ _ _ Hk) in Hrun.
  eapply placement_loop_prefix. left. exact Hrun.
Qed.


End Results.

(** ** The claims on sample runs *)

(** C1 at the sample run: the first two signals of the plan. *)
Lemma occupied_bins_disjoint_witness :
  exists a b,
    BandPlan.signals sample_plan !! 0%nat = Some a /\
    BandPlan.signals sample_plan !! 1%nat = Some b /\
    no_common_bin (Signal.occupied_bins a) (Signal.occupied_bins b) /\
    no_common_bin (Signal.occupied_bins a)
      (Signal.occupied_bins b ++ Signal.guard_bins b).
Proof.
  eexists. eexists. split; [reflexivity|]. split; [reflexivity|].
  assert (generate_band_plan 3000000 30 3 15 20 sample_types
            (Some sample_seed) 4 10 quiet_world = Returns sample_plan)
    as Hrun by (vm_compute; reflexivity).
  apply (occupied_bins_disjoint 3000000 30 3 15 20 sample_types
           (Some sample_seed) 4 10 quiet_world sample_plan Hrun
           0%nat 1%nat).
  - discriminate.
  - reflexivity.
  - reflexivity.
Defined.

(** C2 fails without a bandwidth: on a channel of bandwidth [0] every grid
    frequency is [0], [index] resolves the drawn edge to position [0], and
    the signal of width 2 occupies bins [-1] and [0], although
    [n_bins = 30 >= 1], [1 <= max_signal_bins = 4 <= 30],
    [min_snr_db = 15 <= max_snr_db = 15] and [signal_types] is not empty. *)
Lemma zero_bandwidth_leaves_grid :
  generate_band_plan 0 30 1 15 15 ["FM"%string] (Some 1) 4 1 quiet_world
  = Returns zero_bandwidth_plan /\
  exists s x,
    s ∈ BandPlan.signals zero_bandwidth_plan /\
    x ∈ Signal.occupied_bins s /\
    x < 0.
Proof.
  split; [vm_compute; reflexivity|].
  eexists. exists (-1). split; [apply list_elem_of_here|].
  split; [apply list_elem_of_here|lia].
Qed.

(** C2 at the sample run: its first signal. *)
Lemma signal_well_formed_witness :
  exists s,
    BandPlan.signals sample_plan !! 0%nat = Some s /\
    well_formed_output 30 4 15 20 sample_types s.
Proof.
  eexists. split; [reflexivity|].
  apply (signal_well_formed 3000000 30 3 15 20 sample_types
           (Some sample_seed) 4 10 quiet_world sample_plan).
  - vm_compute. discriminate.
  - lia.
  - lia.
  - vm_compute. discriminate.
  - vm_compute. discriminate.
  - discriminate.
  - vm_compute. reflexivity.
  - apply list_elem_of_here.
Defined.

(** C3 fails on the code: with [n_bins = 2] and [max_signal_bins = 2], a
    drawn width of 2 leaves [bin_edges[1:1]], no edge at all, and the draw
    of the centre raises [IndexError]. *)
Theorem full_width_even_draw_raises :
  valid_edges 3000000 2 2 = [] /\
  generate_band_plan 3000000 2 1 15 15 ["FM"%string] (Some 1) 2 1
    quiet_world = Raises IndexError.
Proof. split; vm_compute; reflexivity. Qed.

(** C4 fails on the code: with [n_bins = 4] and width 2, the code keeps
    edges 1 and 2 of the five, while removing the first and the last edge
    only leaves edges 1, 2 and 3; the edge 3 that the code drops resolves
    to position 3, and the span [2, 3] around it lies inside the grid. *)
Theorem even_width_drops_top_edge :
  valid_edges 4 4 2 = take 2 (drop 1 (bin_edges 4 4)) /\
  spec_valid_edges 4 4 2 = take 3 (drop 1 (bin_edges 4 4)) /\
  exists e,
    bin_edges 4 4 !! 3%nat = Some e /\
    e ∈ spec_valid_edges 4 4 2 /\
    e ∉ valid_edges 4 4 2 /\
    py_index e (bin_edges 4 4) = Ok 3 /\
    Forall (fun x => 0 <= x < 4) ((fun x => 3 - Z.quot 2 2 + x) <$> py_range 2).
Proof.
  split; [vm_compute; reflexivity|]. split; [vm_compute; reflexivity|].
  eexists. split; [vm_compute; reflexivity|]. split; [|split; [|split]].
  - vm_compute. do 2 apply list_elem_of_further. apply list_elem_of_here.
  - vm_compute. intros H.
    repeat (apply elem_of_cons in H as [H|H]; [discriminate|]).
    by apply not_elem_of_nil in H.
  - vm_compute. reflexivity.
  - vm_compute. repeat constructor; discriminate.
Qed.



(** Beside C6: without a seed the entropy of the process decides the
    draws, and two calls with the same parameters can end differently. *)
Lemma unseeded_run_follows_entropy :
  generate_band_plan 3000000 30 1 15 20 sample_types None 4 10
    (mkWorld (mkTape [] 0) sample_seed)
  = Returns (BandPlan.mk 3000000 30 1 (take 1 (BandPlan.signals sample_plan)))
  /\
  exists plan,
    generate_band_plan 3000000 30 1 15 20 sample_types None 4 10
      (mkWorld (mkTape [] 0) 0) = Returns plan /\
    BandPlan.signals plan <> take 1 (BandPlan.signals sample_plan).
Proof.
  split; [vm_compute; reflexivity|].
  eexists. split; [vm_compute; reflexivity|]. vm_compute. discriminate.
Qed.



(** C8 fails on the code: in the sample run the first attempt is accepted
    and consumes four draws, the second is rejected and consumes three. *)
Lemma rejected_attempt_draws_less :
  exists s g1 g2,
    attempt 3000000 30 15 20 sample_types 4 [] (tape_seed sample_seed)
    = Ok (Some s, g1) /\
    attempt 3000000 30 15 20 sample_types 4 [s] g1 = Ok (None, g2) /\
    rnd_draws g1 = (4 + rnd_draws (tape_seed sample_seed))%nat /\
    rnd_draws g2 = (3 + rnd_draws g1)%nat /\
    rnd_draws g2 <> (4 + rnd_draws g1)%nat.
Proof.
  do 3 eexists. split; [vm_compute; reflexivity|].
  split; [vm_compute; reflexivity|].
  split; [reflexivity|]. split; [reflexivity|]. vm_compute. discriminate.
Qed.

(** C8 at the first attempt of the sample run. *)
Lemma attempt_draws_witness :
  exists s g1,
    attempt 3000000 30 15 20 sample_types 4 [] (tape_seed sample_seed)
    = Ok (Some s, g1) /\
    rnd_draws g1 = (4 + rnd_draws (tape_seed sample_seed))%nat.
Proof.
  assert (exists s g1,
             attempt 3000000 30 15 20 sample_types 4 []
               (tape_seed sample_seed) = Ok (Some s, g1))
    as (s & g1 & Hrun) by (do 2 eexists; vm_compute; reflexivity).
  exists s, g1. split; [exact Hrun|].
  exact (proj1 (attempt_draws 3000000 30 15 20 sample_types 4 []
                  (tape_seed sample_seed) (Some s) g1 Hrun)).
Defined.

(** C9 fails for a negative request: the loop is not entered, and the
    count of the plan, 0, is above the requested [-1]. *)
Lemma negative_request_exceeded :
  exists plan,
    generate_band_plan 3000000 30 (-1) 15 15 ["FM"%string] (Some 1) 4 10
      quiet_world = Returns plan /\
    BandPlan.n_signals plan = 0 /\
    ~ (0 <= BandPlan.n_signals plan <= -1).
Proof.
  eexists. split; [vm_compute; reflexivity|]. split; [reflexivity|].
  simpl. lia.
Qed.

(** C9 at the sample run. *)
Lemma plan_assembly_witness :
  BandPlan.freq_span sample_plan = 3000000%Q /\
  BandPlan.n_bins sample_plan = 30 /\
  BandPlan.n_signals sample_plan
  = Z.of_nat (length (BandPlan.signals sample_plan)) /\
  0 <= BandPlan.n_signals sample_plan <= 3.
Proof.
  assert (generate_band_plan 3000000 30 3 15 20 sample_types
            (Some sample_seed) 4 10 quiet_world = Returns sample_plan)
    as Hrun by (vm_compute; reflexivity).
  pose proof (plan_assembly 3000000 30 3 15 20 sample_types
                (Some sample_seed) 4 10 quiet_world sample_plan Hrun)
    as (Hspan & Hbins & Hcount & Hpos & Hmax & _).
  repeat split; try assumption. apply Hmax. lia.
Defined.

(** C10 fails on the code, by the defect of C3: with
    [min_snr_db = 20 > max_snr_db = 10], [n_bins = 2] and
    [max_signal_bins = 2], a drawn width of 2 raises [IndexError]. *)
Theorem reversed_snr_full_width_raises :
  valid_edges 3000000 2 2 = [] /\
  generate_band_plan 3000000 2 1 20 10 ["FM"%string] (Some 1) 2 1
    quiet_world = Raises IndexError.
Proof. split; vm_compute; reflexivity. Qed.

(** * Further properties of the code *)

(** ** Where a signal is centred *)

Section Centre.
Context {G : Type} `{RNG : PyRandom G}.
Variables (channel_bandwidth : Q) (n_bins n_signals : Z).
Variables (min_snr_db max_snr_db : Q) (signal_types : list string).
Variables (max_signal_bins max_tries : Z).

Local Abbreviation candidate' :=
  (candidate channel_bandwidth n_bins min_snr_db max_snr_db max_signal_bins).
Local Abbreviation loop' :=
  (placement_loop channel_bandwidth n_bins n_signals min_snr_db max_snr_db
     signal_types max_signal_bins max_tries).

(** Lines 127-134 and 141-148 on any grid: [index] answers the first
    position that holds the drawn frequency, which is the position drawn
    or one before it. *)
Lemma draw_center_resolved (f : Z -> Q) (m h w len : Z) (g : G) c occ g2 :
  0 <= h -> h + len <= m ->
  bind (choice (f <$> seqZ h len))
    (fun center_freq =>
       bind (lift (py_index center_freq (f <$> seqZ 0 m)))
         (fun ind =>
            ret (center_freq,
                 (list_to_set ((fun x => ind - h + x) <$> py_range w)
                  : gset Z)))) g = Ok (c, occ, g2) ->
  exists k ind y,
    h <= k < h + len /\ 0 <= ind <= k /\
    occ = list_to_set (seqZ (ind - h) w) /\
    (f <$> seqZ 0 m) !! Z.to_nat k = Some c /\
    (f <$> seqZ 0 m) !! Z.to_nat ind = Some y /\
    (y == c)%Q.
Proof.
  intros Hh Hm H.
  eapply draw_center_Ok in H as (k & ind & Hk & -> & Hind & -> & _);
    [|reflexivity].
  assert (Hlook : (f <$> seqZ 0 m) !! Z.to_nat k = Some (f k)).
  { rewrite lookup_fmap_seqZ, decide_True by lia. do 2 f_equal. lia. }
  destruct (py_index_found (f k) _ _ _ Hlook) as (i & Hi & Hik).
  { apply Qeq_bool_iff. reflexivity. }
  rewrite Hind in Hi. injection Hi as <-.
  destruct (py_index_Ok _ _ _ Hind) as (_ & (y & Hy & Heq) & _).
  exists k, ind, y. rewrite Z2Nat.id in Hik by lia.
  repeat split; try done; try lia. by apply Qeq_bool_iff.
Qed.

Lemma candidate_resolved (g : G) c g' :
  candidate' g = Ok (c, g') -> resolved channel_bandwidth n_bins c.
Proof.
  intros H. unfold candidate in H.
  rand_inv H. rename a into w. apply randint_Ok in Hstep as [Hw _].
  rand_inv Hrest. rename a into snr. clear Hstep.
  rand_inv Hrest0. destruct a as [center occ].
  assert (Hh : Z.quot w 2 = w / 2) by (apply Z.quot_div_nonneg; lia).
  assert (exists k ind y,
             w / 2 <= k < n_bins - w / 2 /\ 0 <= ind <= k /\
             occ = list_to_set (seqZ (ind - w / 2) w) /\
             centre_grid channel_bandwidth n_bins w !! Z.to_nat k
             = Some center /\
             centre_grid channel_bandwidth n_bins w !! Z.to_nat ind = Some y /\
             (y == center)%Q)
    as (k & ind & y & Hk & Hind & -> & Hat & Hy & Heq).
  { unfold centre_grid. destruct (Z.eqb_spec (w mod 2) 0) as [Heven|Hodd].
    - rewrite valid_edges_eq in Hstep by lia.
      unfold bin_edges, py_range in *.
      apply draw_center_resolved in Hstep
        as (k & ind & y & Hk & Hind & -> & Hat & Hy & Heq); [|lia_div..].
      rewrite Hh in *. exists k, ind, y. repeat split; try done; lia.
    - rewrite valid_centers_eq in Hstep by lia.
      unfold bin_centers, py_range in *.
      apply draw_center_resolved in Hstep
        as (k & ind & y & Hk & Hind & -> & Hat & Hy & Heq); [|lia_div..].
      rewrite Hh in *. exists k, ind, y. repeat split; try done; lia. }
  rand_inv Hrest. rand_inv Hstep0. rand_inv Hrest0. rand_inv Hstep0.
  rand_inv Hrest. rand_inv Hstep0. rand_inv Hrest0. rand_inv Hstep0.
  rand_inv Hrest. subst c. exists k, ind, y. simpl.
  repeat split; try done; lia.
Qed.

(** What holds of every candidate, whatever its modulation type, holds of
    every signal the loop appends. *)
Lemma placement_loop_Forall (P : Signal.t (gset Z) -> Prop) fuel
    (st st' : loop_state G) :
  (forall g c g' m, candidate' g = Ok (c, g') ->
                    P (set_modulation_type m c)) ->
  Forall P (signals_of st) ->
  loop' fuel st = Done st' \/ loop' fuel st = Paused st' ->
  Forall P (signals_of st').
Proof.
  intros Hcand HF Hrun.
  apply (placement_loop_invariant channel_bandwidth n_bins n_signals
           min_snr_db max_snr_db signal_types max_signal_bins max_tries
           (fun st => Forall P (signals_of st)))
    with (fuel := fuel) (st := st); [| |exact HF|exact Hrun].
  - intros st0 g' _ _ _ HP. exact HP.
  - intros st0 s g' _ _ Hatt HF0. simpl.
    apply attempt_Ok in Hatt as (c & g1 & Hc & _ & m & _ & ->).
    apply Forall_app. split; [exact HF0|].
    apply Forall_singleton. by eapply Hcand.
Qed.

Lemma generate_band_plan_resolved instance_seed (w : World G) plan :
  generate_band_plan channel_bandwidth n_bins n_signals min_snr_db
    max_snr_db signal_types instance_seed max_signal_bins max_tries w
  = Returns plan ->
  exists signals,
    BandPlan.signals plan = to_lists <$> signals /\
    Forall (resolved channel_bandwidth n_bins) signals.
Proof.
  intros H. apply generate_band_plan_Returns in H as (_ & st & Hrun & ->).
  exists (signals_of st). split; [reflexivity|].
  eapply placement_loop_Forall; [| |left; exact Hrun].
  - intros g c g' m Hc. apply candidate_resolved in Hc. exact Hc.
  - constructor.
Qed.

End Centre.

(** ** Further properties of the returned plan *)

Section Layout.
Context {G : Type} `{RNG : PyRandom G}.
Variables (channel_bandwidth : Q) (n_bins n_signals : Z).
Variables (min_snr_db max_snr_db : Q) (signal_types : list string).
Variables (instance_seed : option Z) (max_signal_bins max_tries : Z).

(** An even-width signal never reaches the top bin, whatever the grid
    frequencies are: lines 125-126 take the centre from
    [bin_edges[half : n_bins - half]], whose last entry is edge
    [n_bins - half - 1]; [index] resolves it to that position or to an
    earlier one, so the span ends at bin [n_bins - 2] at most. *)
Theorem even_width_below_top (w : World G) plan :
  generate_band_plan channel_bandwidth n_bins n_signals min_snr_db
    max_snr_db signal_types instance_seed max_signal_bins max_tries w
  = Returns plan ->
  forall s, s ∈ BandPlan.signals plan ->
    Signal.n_bins s mod 2 = 0 ->
    forall x, x ∈ Signal.occupied_bins s -> x < n_bins - 1.
Proof.
  intros H s Hs Heven x Hx.
  apply generate_band_plan_resolved in H as (signals & Hsig & HF).
  rewrite Hsig in Hs. apply list_elem_of_fmap in Hs as (s0 & -> & Hs0).
  rewrite Forall_forall in HF.
  destruct (HF s0 Hs0) as (k & ind & y & Hk & Hind & Hw & Hocc & _).
  simpl in *. rewrite Hocc in Hx.
  apply elem_of_elements, elem_of_run in Hx. lia_div.
Qed.

(** The centre frequency of a signal is taken from the grid list of its
    parity, and the entry of that list in the middle of the occupied
    span, at position [lo + width / 2], compares equal to it. *)
Theorem center_freq_at_span_middle (w : World G) plan :
  generate_band_plan channel_bandwidth n_bins n_signals min_snr_db
    max_snr_db signal_types instance_seed max_signal_bins max_tries w
  = Returns plan ->
  forall s, s ∈ BandPlan.signals plan ->
    Signal.center_freq s
      ∈ centre_grid channel_bandwidth n_bins (Signal.n_bins s) /\
    exists lo y,
      (forall x, x ∈ Signal.occupied_bins s
                 <-> lo <= x < lo + Signal.n_bins s) /\
      0 <= lo + Signal.n_bins s / 2 /\
      centre_grid channel_bandwidth n_bins (Signal.n_bins s)
        !! Z.to_nat (lo + Signal.n_bins s / 2) = Some y /\
      (y == Signal.center_freq s)%Q.
Proof.
  intros H s Hs.
  apply generate_band_plan_resolved in H as (signals & Hsig & HF).
  rewrite Hsig in Hs. apply list_elem_of_fmap in Hs as (s0 & -> & Hs0).
  rewrite Forall_forall in HF.
  destruct (HF s0 Hs0) as (k & ind & y & Hk & Hind & Hw & Hocc & Hat & Hy & Heq).
  simpl. split.
  - apply list_elem_of_lookup. eauto.
  - exists (ind - Signal.n_bins s0 / 2), y.
    replace (ind - Signal.n_bins s0 / 2 + Signal.n_bins s0 / 2) with ind
      by lia.
    split; [|split; [lia|split; [exact Hy|exact Heq]]].
    intros x. rewrite Hocc, elem_of_elements. apply elem_of_run.
Qed.

End Layout.

(** ** Guard bins and the distance between signals *)

Lemma size_pair_le (a b : Z) : (size ({[ a; b ]} : gset Z) <= 2)%nat.
Proof.
  rewrite size_union_alt, size_singleton.
  pose proof (subseteq_size (({[ b ]} : gset Z) ∖ {[ a ]}) {[ b ]}) as Hle.
  rewrite size_singleton in Hle.
  assert (({[ b ]} : gset Z) ∖ {[ a ]} ⊆ {[ b ]}) as Hsub
    by (intros x Hx; apply elem_of_difference in Hx; tauto).
  specialize (Hle Hsub). lia.
Qed.

Section Distance.
Context {G : Type} `{RNG : PyRandom G}.
Variables (channel_bandwidth : Q) (n_bins n_signals : Z).
Variables (min_snr_db max_snr_db : Q) (signal_types : list string).
Variables (instance_seed : option Z) (max_signal_bins max_tries : Z).

Local Abbreviation shaped' :=
  (shaped channel_bandwidth n_bins min_snr_db max_snr_db max_signal_bins).
Local Abbreviation accepted' :=
  (accepted channel_bandwidth n_bins min_snr_db max_snr_db signal_types
     max_signal_bins).

(** The guard bins of a signal are the two neighbours of its span on the
    grid taken as a circle (lines 152-157): at most two indices, without
    repetition; a signal that starts at bin 0 has bin [n_bins - 1] as a
    guard bin, and one that ends at bin [n_bins - 1] has bin 0. *)
Theorem guard_bins_are_neighbours (w : World G) plan :
  ~ (channel_bandwidth == 0)%Q ->
  generate_band_plan channel_bandwidth n_bins n_signals min_snr_db
    max_snr_db signal_types instance_seed max_signal_bins max_tries w
  = Returns plan ->
  forall s, s ∈ BandPlan.signals plan ->
    exists lo,
      (forall x, x ∈ Signal.occupied_bins s
                 <-> lo <= x < lo + Signal.n_bins s) /\
      (forall x, x ∈ Signal.guard_bins s
                 <-> x = (lo - 1) mod n_bins
                     \/ x = (lo + Signal.n_bins s) mod n_bins) /\
      NoDup (Signal.guard_bins s) /\
      (length (Signal.guard_bins s) <= 2)%nat /\
      (lo = 0 -> n_bins - 1 ∈ Signal.guard_bins s) /\
      (lo + Signal.n_bins s = n_bins -> 0 ∈ Signal.guard_bins s).
Proof.
  intros Hcb H s Hs.
  apply generate_band_plan_accepted in H as (signals & Hsig & HF & _).
  rewrite Hsig in Hs. apply list_elem_of_fmap in Hs as (s0 & -> & Hs0).
  rewrite Forall_forall in HF.
  destruct (HF s0 Hs0) as [(lo & u & Hw & Hn & Hocc & Hg & Hpl & _) _].
  apply (placed_inside _ _ _ _ Hcb) in Hpl. simpl.
  assert (Hmem : forall x, x ∈ elements (Signal.guard_bins s0)
                           <-> x = (lo - 1) mod n_bins
                               \/ x = (lo + Signal.n_bins s0) mod n_bins).
  { intros x. rewrite elem_of_elements, Hg, elem_of_guard.
    pose proof (Z.mod_pos_bound (lo - 1) n_bins ltac:(lia)).
    pose proof (Z.mod_pos_bound (lo + Signal.n_bins s0) n_bins ltac:(lia)).
    split; [tauto|]. intros [->| ->]; split; auto. }
  exists lo. split; [|split; [|split; [|split; [|split]]]].
  - intros x. rewrite Hocc, elem_of_elements. apply elem_of_run.
  - exact Hmem.
  - apply NoDup_elements.
  - change (length (elements (Signal.guard_bins s0)))
      with (size (Signal.guard_bins s0)).
    rewrite Hg.
    etransitivity; [apply subseteq_size, intersection_subseteq_l|].
    apply size_pair_le.
  - intros ->. apply Hmem. left. rewrite guard_below by lia. reflexivity.
  - intros Htop. apply Hmem. right. rewrite guard_above by lia.
    rewrite Htop, Z.eqb_refl. reflexivity.
Qed.

(** No two signals of a plan touch, on the grid taken as a circle: the
    bin after and the bin before an occupied bin of one signal, modulo
    [n_bins], is never occupied by another signal.  In particular a
    signal in bin 0 and a signal in bin [n_bins - 1] exclude each
    other. *)
Theorem signals_never_touch (w : World G) plan :
  ~ (channel_bandwidth == 0)%Q ->
  generate_band_plan channel_bandwidth n_bins n_signals min_snr_db
    max_snr_db signal_types instance_seed max_signal_bins max_tries w
  = Returns plan ->
  forall (i j : nat) a b,
    i <> j ->
    BandPlan.signals plan !! i = Some a ->
    BandPlan.signals plan !! j = Some b ->
    forall x, x ∈ Signal.occupied_bins a ->
      ((x + 1) mod n_bins ∉ Signal.occupied_bins b) /\
      ((x - 1) mod n_bins ∉ Signal.occupied_bins b).
Proof.
  intros Hcb H i j a b Hij Ha Hb x Hx.
  apply generate_band_plan_accepted in H as (signals & Hsig & HF & Hpw).
  rewrite Hsig in Ha, Hb.
  apply list_lookup_fmap_Some in Ha as (a0 & -> & Ha).
  apply list_lookup_fmap_Some in Hb as (b0 & -> & Hb).
  rewrite Forall_lookup in HF.
  destruct (HF i a0 Ha) as [(lo & u & Hw & Hn & Hocc & Hg & Hpl & _) _].
  destruct (HF j b0 Hb) as [(lo' & u' & Hw' & _ & Hocc' & Hg' & Hpl' & _) _].
  apply (placed_inside _ _ _ _ Hcb) in Hpl, Hpl'.
  pose proof (Hpw i j a0 b0 Hij Ha Hb) as Hab.
  pose proof (Hpw j i b0 a0 (not_eq_sym Hij) Hb Ha) as Hba.
  unfold clear_of in Hab, Hba.
  assert (Hc : forall y, y ∈ Signal.occupied_bins a0 ->
                         y ∈ Signal.occupied_bins b0 -> False).
  { intros y Hy Hy'. apply (not_elem_of_empty (C:=gset Z) y).
    rewrite <- Hab. apply elem_of_intersection. split; [done|].
    apply elem_of_union. by left. }
  assert (Hd : forall y, y ∈ Signal.occupied_bins b0 ->
                         y ∈ Signal.guard_bins a0 -> False).
  { intros y Hy Hy'. apply (not_elem_of_empty (C:=gset Z) y).
    rewrite <- Hba. apply elem_of_intersection. split; [done|].
    apply elem_of_union. by right. }
  simpl in *. apply elem_of_elements in Hx.
  rewrite Hocc, Hocc', Hg in *. clear Hocc Hocc' Hg Hg' Hab Hba.
  setoid_rewrite elem_of_run in Hc. setoid_rewrite elem_of_run in Hd.
  setoid_rewrite elem_of_guard in Hd.
  apply elem_of_run in Hx.
  rewrite (guard_below lo), (guard_above (lo + _)) in Hd by lia.
  split; intros Hy; apply elem_of_elements, elem_of_run in Hy.
  - rewrite (guard_above (x + 1)) in Hy by lia.
    pose proof (Hc (x + 1)) as Hc1. pose proof (Hd 0) as Hd0.
    pose proof (Hd (x + 1)) as Hd1.
    repeat match goal with
           | H : context [if ?c =? ?d then _ else _] |- _ =>
               destruct (Z.eqb_spec c d)
           end; lia.
  - rewrite (guard_below x) in Hy by lia.
    pose proof (Hc (x - 1)) as Hc1. pose proof (Hd (n_bins - 1)) as Hd0.
    pose proof (Hd (x - 1)) as Hd1.
    repeat match goal with
           | H : context [if ?c =? ?d then _ else _] |- _ =>
               destruct (Z.eqb_spec c d)
           end; lia.
Qed.

End Distance.

(** ** Attempts, tries and draws *)

Section Budget.
Context {G : Type} `{RNG : PyRandom G}.
Variables (channel_bandwidth : Q) (n_bins n_signals : Z).
Variables (min_snr_db max_snr_db : Q) (signal_types : list string).
Variables (instance_seed : option Z) (max_signal_bins max_tries : Z).

Local Abbreviation loop' :=
  (placement_loop channel_bandwidth n_bins n_signals min_snr_db max_snr_db
     signal_types max_signal_bins max_tries).
Local Abbreviation attempt' :=
  (attempt channel_bandwidth n_bins min_snr_db max_snr_db signal_types
     max_signal_bins).
Local Abbreviation candidate' :=
  (candidate channel_bandwidth n_bins min_snr_db max_snr_db max_signal_bins).

(** A plan with fewer signals than requested is returned only when the
    budget is used up: the loop then made exactly [max_tries] attempts. *)
Theorem short_plan_used_all_tries (w : World G) plan :
  0 <= max_tries ->
  generate_band_plan channel_bandwidth n_bins n_signals min_snr_db
    max_snr_db signal_types instance_seed max_signal_bins max_tries w
  = Returns plan ->
  BandPlan.n_signals plan < n_signals ->
  exists st,
    loop' (Z.to_nat max_tries) (initial_state instance_seed w) = Done st /\
    plan = assemble channel_bandwidth n_bins (signals_of st) /\
    tries_of st = max_tries.
Proof.
  intros Hmax H Hshort.
  apply generate_band_plan_Returns in H as (_ & st & Hrun & ->).
  exists st. split; [exact Hrun|]. split; [reflexivity|].
  pose proof (placement_loop_Done _ _ _ _ _ _ _ _ _ _ _ Hrun) as Hexit.
  pose proof (placement_loop_tries _ _ _ _ _ _ _ _ _ _ _ Hrun) as [_ Hle].
  simpl in Hshort, Hle. lia.
Qed.

(** Where the loop is entered, the first candidate finds no signal to
    collide with and is accepted: a returned plan is then not empty. *)
Theorem first_candidate_accepted (w : World G) plan :
  0 < n_signals -> 0 < max_tries ->
  generate_band_plan channel_bandwidth n_bins n_signals min_snr_db
    max_snr_db signal_types instance_seed max_signal_bins max_tries w
  = Returns plan ->
  1 <= BandPlan.n_signals plan /\
  exists c g' s,
    candidate' (rng_of (initial_state instance_seed w)) = Ok (c, g') /\
    BandPlan.signals plan !! 0%nat = Some s /\
    Signal.occupied_bins s = elements (Signal.occupied_bins c) /\
    Signal.n_bins s = Signal.n_bins c /\
    Signal.snr s = Signal.snr c /\
    Signal.center_freq s = Signal.center_freq c.
Proof.
  intros Hsig Htries H.
  apply generate_band_plan_Returns in H as (_ & st & Hrun & ->).
  destruct (Z.to_nat max_tries) as [|fuel] eqn:Hfuel; [lia|].
  assert ((Z.of_nat (length (signals_of (initial_state instance_seed w)))
             <? n_signals)
          && (tries_of (initial_state instance_seed w) <? max_tries)
          = true) as Hcond
    by (apply andb_true_iff; split; apply Z.ltb_lt; simpl; lia).
  rewrite placement_loop_step, Hcond in Hrun.
  destruct (attempt' _ _) as [[[s|] g']|e] eqn:Hatt; [| |discriminate].
  - apply attempt_Ok in Hatt as (c & g1 & Hc & _ & m & _ & ->).
    destruct (placement_loop_prefix _ _ _ _ _ _ _ _ _ _ _ (or_introl Hrun))
      as [rest Hrest].
    simpl in Hrest.
    simpl. rewrite Hrest. simpl. split; [lia|].
    exists c, g1. eexists. split; [exact Hc|]. split; [reflexivity|].
    simpl. auto.
  - apply attempt_Ok in Hatt as (c & g1 & _ & Hov & _). discriminate.
Qed.

(** The generator is drawn from three times per attempt and once more per
    accepted signal: when the loop stops, the number of draws made since
    seeding is [3 * tries + len(signals)]. *)
Theorem draws_accounting (w : World G) (fuel : nat) st :
  loop' fuel (initial_state instance_seed w) = Done st ->
  Z.of_nat (rnd_draws (rng_of st))
  = Z.of_nat (rnd_draws (rng_of (initial_state instance_seed w)))
    + 3 * tries_of st + Z.of_nat (length (signals_of st)).
Proof.
  intros Hrun.
  apply (placement_loop_invariant channel_bandwidth n_bins n_signals
           min_snr_db max_snr_db signal_types max_signal_bins max_tries
           (fun st =>
              Z.of_nat (rnd_draws (rng_of st))
              = Z.of_nat (rnd_draws (rng_of (initial_state instance_seed w)))
                + 3 * tries_of st + Z.of_nat (length (signals_of st))))
    with (fuel := fuel) (st := initial_state instance_seed w);
    [| |simpl; lia|left; exact Hrun].
  - intros st0 g' _ _ Hatt HP. cbn [rng_of tries_of signals_of].
    apply attempt_Ok in Hatt as (c & g1 & Hc & _ & ->).
    apply candidate_Ok in Hc as (_ & _ & _ & _ & _ & _ & _ & _ & _ & Hd).
    lia.
  - intros st0 s g' _ _ Hatt HP. cbn [rng_of tries_of signals_of].
    apply attempt_Ok in Hatt as (c & g1 & Hc & _ & m & Hm & _).
    apply candidate_Ok in Hc as (_ & _ & _ & _ & _ & _ & _ & _ & _ & Hd).
    apply choice_Ok in Hm as [_ Hd'].
    rewrite length_app. cbn [length]. lia.
Qed.




End Budget.

(** ** How many signals fit *)

Lemma shaped_in_grid (channel_bandwidth : Q) (n_bins : Z)
    (min_snr_db max_snr_db : Q) (max_signal_bins : Z)
    (s : Signal.t (gset Z)) :
  ~ (channel_bandwidth == 0)%Q ->
  shaped channel_bandwidth n_bins min_snr_db max_snr_db max_signal_bins s ->
  exists lo, in_grid n_bins s lo.
Proof.
  intros Hcb (lo & u & Hw & Hn & Hocc & Hg & Hpl & _).
  apply (placed_inside _ _ _ _ Hcb) in Hpl. exists lo. unfold in_grid.
  repeat split; try done; lia.
Qed.

Section Capacity.
Variable n_bins : Z.

Lemma bin_above_in_grid (s : Signal.t (gset Z)) lo :
  in_grid n_bins s lo ->
  bin_above n_bins s
  = if lo + Signal.n_bins s =? n_bins then 0 else lo + Signal.n_bins s.
Proof.
  intros (Hw & Hlo & Hhi & Hocc & _). unfold bin_above.
  rewrite Hocc, py_max_run by lia.
  replace (lo + Signal.n_bins s - 1 + 1) with (lo + Signal.n_bins s) by lia.
  apply guard_above. lia.
Qed.

Lemma elem_of_reach (s : Signal.t (gset Z)) lo x :
  in_grid n_bins s lo ->
  x ∈ reach n_bins s <->
  lo <= x < lo + Signal.n_bins s
  \/ x = (if lo + Signal.n_bins s =? n_bins then 0
          else lo + Signal.n_bins s).
Proof.
  intros Hs. unfold reach.
  rewrite elem_of_union, elem_of_singleton, (bin_above_in_grid s lo Hs).
  destruct Hs as (_ & _ & _ & -> & _). by rewrite elem_of_run.
Qed.

Lemma reach_subseteq (s : Signal.t (gset Z)) lo :
  in_grid n_bins s lo -> reach n_bins s ⊆ valid_bins n_bins.
Proof.
  intros Hs x Hx. apply (elem_of_reach s lo x Hs) in Hx.
  destruct Hs as (Hw & Hlo & Hhi & _).
  unfold valid_bins, py_range. apply elem_of_list_to_set, elem_of_seqZ.
  destruct (Z.eqb_spec (lo + Signal.n_bins s) n_bins); lia.
Qed.

(** A signal that leaves a bin of the grid free claims one bin more than
    it occupies. *)
Lemma size_reach (s : Signal.t (gset Z)) lo :
  in_grid n_bins s lo -> Signal.n_bins s < n_bins ->
  Z.of_nat (size (reach n_bins s)) = Signal.n_bins s + 1.
Proof.
  intros Hs Hlt. pose proof (bin_above_in_grid s lo Hs) as Habove.
  destruct Hs as (Hw & Hlo & Hhi & Hocc & _). unfold reach.
  rewrite size_union.
  - rewrite size_singleton, Hocc, size_list_to_set by apply NoDup_seqZ.
    rewrite length_seqZ. lia.
  - intros x Hx Hx'. apply elem_of_singleton in Hx'. subst x.
    rewrite Hocc, elem_of_run, Habove in Hx.
    destruct (Z.eqb_spec (lo + Signal.n_bins s) n_bins); lia.
Qed.

(** Two signals that keep clear of each other claim different bins. *)
Lemma reach_disjoint (a b : Signal.t (gset Z)) lo lo' :
  in_grid n_bins a lo -> in_grid n_bins b lo' ->
  clear_of a b -> clear_of b a ->
  reach n_bins a ## reach n_bins b.
Proof.
  intros Ha Hb Hab Hba x Hxa Hxb.
  apply (elem_of_reach a lo x Ha) in Hxa.
  apply (elem_of_reach b lo' x Hb) in Hxb.
  destruct Ha as (Hw & Hlo & Hhi & Hocc & Hg).
  destruct Hb as (Hw' & Hlo' & Hhi' & Hocc' & Hg').
  unfold clear_of in Hab, Hba.
  assert (Hc : forall y, y ∈ Signal.occupied_bins a ->
                         y ∈ Signal.occupied_bins b
                         \/ y ∈ Signal.guard_bins b -> False).
  { intros y Hy Hy'. apply (not_elem_of_empty (C:=gset Z) y).
    rewrite <- Hab. apply elem_of_intersection. split; [done|].
    by apply elem_of_union. }
  assert (Hd : forall y, y ∈ Signal.occupied_bins b ->
                         y ∈ Signal.occupied_bins a
                         \/ y ∈ Signal.guard_bins a -> False).
  { intros y Hy Hy'. apply (not_elem_of_empty (C:=gset Z) y).
    rewrite <- Hba. apply elem_of_intersection. split; [done|].
    by apply elem_of_union. }
  rewrite Hocc, Hocc', Hg, Hg' in *. clear Hocc Hocc' Hg Hg' Hab Hba.
  setoid_rewrite elem_of_run in Hc. setoid_rewrite elem_of_guard in Hc.
  setoid_rewrite elem_of_run in Hd. setoid_rewrite elem_of_guard in Hd.
  pose proof (Hc x) as Hcx. pose proof (Hd x) as Hdx.
  pose proof (Hc (lo + Signal.n_bins a - 1)) as Hchi.
  rewrite (guard_below lo'), (guard_above (lo' + _)) in Hcx, Hchi by lia.
  rewrite (guard_below lo), (guard_above (lo + _)) in Hdx by lia.
  repeat match goal with
         | H : context [if ?c =? ?d then _ else _] |- _ =>
             destruct (Z.eqb_spec c d)
         end; lia.
Qed.

Lemma pairwise_clear_cons_inv (s : Signal.t (gset Z)) l :
  pairwise_clear (s :: l) ->
  (forall e, e ∈ l -> clear_of s e /\ clear_of e s) /\ pairwise_clear l.
Proof.
  intros Hpw. split.
  - intros e He. apply list_elem_of_lookup in He as [i Hi]. split.
    + by apply (Hpw 0%nat (S i) s e).
    + by apply (Hpw (S i) 0%nat e s).
  - intros i j a b Hij Ha Hb. apply (Hpw (S i) (S j)); [lia|done..].
Qed.

(** The bins claimed by pairwise clear signals are all different bins of
    the grid, so there are at most [n_bins] of them. *)
Lemma claimed_bins_fit (l : list (Signal.t (gset Z))) :
  Forall (fun s => (exists lo, in_grid n_bins s lo)
                   /\ Signal.n_bins s < n_bins) l ->
  pairwise_clear l ->
  ⋃ (reach n_bins <$> l) ⊆ valid_bins n_bins /\
  Z.of_nat (size (⋃ (reach n_bins <$> l)))
  = foldr (fun s acc => Signal.n_bins s + 1 + acc) 0 l.
Proof.
  induction l as [|s l IH]; intros HF Hpw.
  - rewrite fmap_nil, union_list_nil. split.
    + intros x Hx. by apply not_elem_of_empty in Hx.
    + by rewrite size_empty.
  - apply Forall_cons in HF as [[[lo Hs] Hlt] HF].
    apply pairwise_clear_cons_inv in Hpw as [Hhead Hpw].
    destruct (IH HF Hpw) as [Hsub Hsize].
    rewrite fmap_cons, union_list_cons. split.
    + apply union_subseteq. split; [by eapply reach_subseteq|exact Hsub].
    + rewrite size_union.
      * rewrite Nat2Z.inj_add, Hsize, (size_reach s lo Hs Hlt). simpl. lia.
      * intros x Hx Hx'. apply elem_of_union_list in Hx' as (X & HX & HxX).
        apply list_elem_of_fmap in HX as (e & -> & He).
        rewrite Forall_forall in HF. destruct (HF e He) as [[lo' He'] _].
        destruct (Hhead e He) as [Hse Hes].
        by apply (reach_disjoint s e lo lo' Hs He' Hse Hes x).
Qed.

(** Among two or more pairwise clear signals none fills the grid. *)
Lemma pairwise_clear_below_grid (l : list (Signal.t (gset Z))) s :
  Forall (fun s => exists lo, in_grid n_bins s lo) l ->
  pairwise_clear l -> (2 <= length l)%nat -> s ∈ l ->
  Signal.n_bins s < n_bins.
Proof.
  intros HF Hpw Hlen Hs. apply list_elem_of_lookup in Hs as [i Hi].
  assert (exists j e, j <> i /\ l !! j = Some e) as (j & e & Hji & Hj).
  { destruct i as [|i].
    - destruct (lookup_lt_is_Some_2 l 1%nat) as [e He]; [lia|].
      exists 1%nat, e. split; [lia|done].
    - destruct (lookup_lt_is_Some_2 l 0%nat) as [e He]; [lia|].
      exists 0%nat, e. split; [lia|done]. }
  rewrite Forall_lookup in HF.
  destruct (HF i s Hi) as (lo & Hw & Hlo & Hhi & Hocc & _).
  destruct (HF j e Hj) as (lo' & Hw' & Hlo' & Hhi' & Hocc' & _).
  pose proof (Hpw i j s e (not_eq_sym Hji) Hi Hj) as Hclear.
  unfold clear_of in Hclear.
  destruct (decide (Signal.n_bins s < n_bins)) as [|Hfull]; [done|].
  exfalso. apply (not_elem_of_empty (C:=gset Z) lo'). rewrite <- Hclear.
  apply elem_of_intersection. split.
  - rewrite Hocc. apply elem_of_run. lia.
  - apply elem_of_union. left. rewrite Hocc'. apply elem_of_run. lia.
Qed.

End Capacity.

Lemma bins_claimed_to_lists (l : list (Signal.t (gset Z))) :
  bins_claimed (to_lists <$> l)
  = foldr (fun s acc => Signal.n_bins s + 1 + acc) 0 l.
Proof.
  unfold bins_claimed. induction l as [|s l IH]; [reflexivity|].
  rewrite fmap_cons. cbn [foldr]. rewrite IH. reflexivity.
Qed.

Lemma bins_claimed_lower (l : list (Signal.t (list Z))) :
  Forall (fun s => 1 <= Signal.n_bins s) l ->
  2 * Z.of_nat (length l) <= bins_claimed l.
Proof.
  unfold bins_claimed. induction 1 as [|s l Hs _ IH]; simpl; lia.
Qed.

Section Fit.
Context {G : Type} `{RNG : PyRandom G}.
Variables (channel_bandwidth : Q) (n_bins n_signals : Z).
Variables (min_snr_db max_snr_db : Q) (signal_types : list string).
Variables (instance_seed : option Z) (max_signal_bins max_tries : Z).

(** A plan of two or more signals leaves a free bin after each of them:
    the widths of its signals plus one bin per signal add up to at most
    [n_bins], so it holds at most [n_bins / 2] signals. *)
Theorem plan_capacity (w : World G) plan :
  ~ (channel_bandwidth == 0)%Q ->
  generate_band_plan channel_bandwidth n_bins n_signals min_snr_db
    max_snr_db signal_types instance_seed max_signal_bins max_tries w
  = Returns plan ->
  2 <= BandPlan.n_signals plan ->
  bins_claimed (BandPlan.signals plan) <= n_bins /\
  2 * BandPlan.n_signals plan <= n_bins.
Proof.
  intros Hcb H Htwo.
  pose proof (generate_band_plan_Returns _ _ _ _ _ _ _ _ _ _ _ H)
    as (_ & st & _ & Hplan).
  apply generate_band_plan_accepted in H as (signals & Hsig & HF & Hpw).
  assert (Hcount : BandPlan.n_signals plan = Z.of_nat (length signals)).
  { rewrite Hplan. simpl. rewrite Hplan in Hsig. simpl in Hsig.
    by rewrite <- (length_fmap to_lists), Hsig, length_fmap. }
  assert (HG : Forall (fun s => exists lo, in_grid n_bins s lo) signals).
  { eapply Forall_impl; [exact HF|]. intros s [Hs _].
    by eapply shaped_in_grid. }
  assert (HW : Forall (fun s => (exists lo, in_grid n_bins s lo)
                               /\ Signal.n_bins s < n_bins) signals).
  { rewrite Forall_forall in HG |- *. intros s Hs. split; [by apply HG|].
    eapply pairwise_clear_below_grid; [|exact Hpw| |exact Hs].
    - by apply Forall_forall.
    - lia. }
  destruct (claimed_bins_fit n_bins signals HW Hpw) as [Hsub Hsize].
  apply subseteq_size in Hsub.
  assert (Z.of_nat (size (valid_bins n_bins)) <= Z.max 0 n_bins) as Hgrid.
  { unfold valid_bins, py_range.
    pose proof (size_list_to_set (C:=gset Z) (seqZ 0 n_bins) (NoDup_seqZ _ _))
      as Hsz.
    rewrite Hsz, length_seqZ. lia. }
  assert (1 <= n_bins) as Hn.
  { destruct signals as [|s0 rest]; [simpl in Hcount; lia|].
    apply Forall_cons in HG as [(lo & Hw & Hlo & Hhi & _) _]. lia. }
  assert (bins_claimed (BandPlan.signals plan) <= n_bins) as Hfit.
  { rewrite Hsig, bins_claimed_to_lists. lia. }
  split; [exact Hfit|].
  pose proof (bins_claimed_lower (BandPlan.signals plan)) as Hlow.
  rewrite Hsig in Hlow at 1. rewrite Hsig, length_fmap in Hlow.
  rewrite Hcount. rewrite Hsig in Hfit.
  assert (Forall (fun s : Signal.t (list Z) => 1 <= Signal.n_bins s)
            (to_lists <$> signals)) as H1.
  { apply Forall_fmap. eapply Forall_impl; [exact HG|].
    intros s (lo & Hw & _). exact Hw. }
  specialize (Hlow H1). lia.
Qed.

End Fit.

Section AtMostTries.
Context {G : Type} `{RNG : PyRandom G}.
Variables (channel_bandwidth : Q) (n_bins n_signals : Z).
Variables (min_snr_db max_snr_db : Q) (signal_types : list string).
Variables (instance_seed : option Z) (max_signal_bins max_tries : Z).

(** Every signal costs an attempt: a plan holds at most [max_tries]
    signals. *)
Theorem signals_at_most_tries (w : World G) plan :
  0 <= max_tries ->
  generate_band_plan channel_bandwidth n_bins n_signals min_snr_db
    max_snr_db signal_types instance_seed max_signal_bins max_tries w
  = Returns plan ->
  BandPlan.n_signals plan <= max_tries.
Proof.
  intros Hmax H.
  apply generate_band_plan_Returns in H as (_ & st & Hrun & ->).
  pose proof (placement_loop_tries _ _ _ _ _ _ _ _ _ _ _ Hrun) as [_ Hle].
  assert (Z.of_nat (length (signals_of st)) <= tries_of st) as Hlen.
  { apply (placement_loop_invariant channel_bandwidth n_bins n_signals
             min_snr_db max_snr_db signal_types max_signal_bins max_tries
             (fun st => Z.of_nat (length (signals_of st)) <= tries_of st))
      with (fuel := Z.to_nat max_tries)
           (st := initial_state instance_seed w);
      [| |simpl; lia|left; exact Hrun].
    - intros st0 g' _ _ _ HP. cbn [signals_of tries_of]. lia.
    - intros st0 s g' _ _ _ HP. cbn [signals_of tries_of].
      rewrite length_app. cbn [length]. lia. }
  simpl in *. lia.
Qed.

End AtMostTries.

(** ** The further properties on sample runs *)



Lemma even_width_below_top_witness :
  exists s,
    BandPlan.signals sample_plan !! 0%nat = Some s /\
    Signal.n_bins s mod 2 = 0 /\
    forall x, x ∈ Signal.occupied_bins s -> x < 30 - 1.
Proof.
  eexists. split; [reflexivity|]. split; [reflexivity|].
  assert (generate_band_plan 3000000 30 3 15 20 sample_types
            (Some sample_seed) 4 10 quiet_world = Returns sample_plan)
    as Hrun by (vm_compute; reflexivity).
  apply (even_width_below_top 3000000 30 3 15 20 sample_types
           (Some sample_seed) 4 10 quiet_world sample_plan Hrun).
  - apply list_elem_of_here.
  - reflexivity.
Defined.

Lemma center_freq_at_span_middle_witness :
  exists s,
    BandPlan.signals sample_plan !! 0%nat = Some s /\
    Signal.center_freq s ∈ centre_grid 3000000 30 (Signal.n_bins s) /\
    exists lo y,
      (forall x, x ∈ Signal.occupied_bins s
                 <-> lo <= x < lo + Signal.n_bins s) /\
      0 <= lo + Signal.n_bins s / 2 /\
      centre_grid 3000000 30 (Signal.n_bins s)
        !! Z.to_nat (lo + Signal.n_bins s / 2) = Some y /\
      (y == Signal.center_freq s)%Q.
Proof.
  eexists. split; [reflexivity|].
  assert (generate_band_plan 3000000 30 3 15 20 sample_types
            (Some sample_seed) 4 10 quiet_world = Returns sample_plan)
    as Hrun by (vm_compute; reflexivity).
  apply (center_freq_at_span_middle 3000000 30 3 15 20 sample_types
           (Some sample_seed) 4 10 quiet_world sample_plan Hrun).
  apply list_elem_of_here.
Defined.

Lemma guard_bins_are_neighbours_witness :
  exists s,
    BandPlan.signals sample_plan !! 1%nat = Some s /\
    exists lo,
      (forall x, x ∈ Signal.occupied_bins s
                 <-> lo <= x < lo + Signal.n_bins s) /\
      (forall x, x ∈ Signal.guard_bins s
                 <-> x = (lo - 1) mod 30
                     \/ x = (lo + Signal.n_bins s) mod 30) /\
      NoDup (Signal.guard_bins s) /\
      (length (Signal.guard_bins s) <= 2)%nat /\
      (lo = 0 -> 30 - 1 ∈ Signal.guard_bins s) /\
      (lo + Signal.n_bins s = 30 -> 0 ∈ Signal.guard_bins s).
Proof.
  eexists. split; [reflexivity|].
  assert (generate_band_plan 3000000 30 3 15 20 sample_types
            (Some sample_seed) 4 10 quiet_world = Returns sample_plan)
    as Hrun by (vm_compute; reflexivity).
  assert (~ (3000000 == 0)%Q) as Hcb by (intros E; vm_compute in E; discriminate).
  apply (guard_bins_are_neighbours 3000000 30 3 15 20 sample_types
           (Some sample_seed) 4 10 quiet_world sample_plan Hcb Hrun).
  apply list_elem_of_further, list_elem_of_here.
Defined.

Lemma signals_never_touch_witness :
  exists a b,
    BandPlan.signals sample_plan !! 0%nat = Some a /\
    BandPlan.signals sample_plan !! 1%nat = Some b /\
    ((5 + 1) mod 30 ∉ Signal.occupied_bins b) /\
    ((5 - 1) mod 30 ∉ Signal.occupied_bins b).
Proof.
  do 2 eexists. split; [reflexivity|]. split; [reflexivity|].
  assert (generate_band_plan 3000000 30 3 15 20 sample_types
            (Some sample_seed) 4 10 quiet_world = Returns sample_plan)
    as Hrun by (vm_compute; reflexivity).
  assert (~ (3000000 == 0)%Q) as Hcb by (intros E; vm_compute in E; discriminate).
  eapply (signals_never_touch 3000000 30 3 15 20 sample_types
            (Some sample_seed) 4 10 quiet_world sample_plan Hcb Hrun
            0%nat 1%nat).
  - discriminate.
  - reflexivity.
  - reflexivity.
  - apply list_elem_of_here.
Defined.

Lemma plan_capacity_witness :
  bins_claimed (BandPlan.signals sample_plan) <= 30 /\
  2 * BandPlan.n_signals sample_plan <= 30.
Proof.
  assert (generate_band_plan 3000000 30 3 15 20 sample_types
            (Some sample_seed) 4 10 quiet_world = Returns sample_plan)
    as Hrun by (vm_compute; reflexivity).
  assert (~ (3000000 == 0)%Q) as Hcb by (intros E; vm_compute in E; discriminate).
  apply (plan_capacity 3000000 30 3 15 20 sample_types
           (Some sample_seed) 4 10 quiet_world sample_plan Hcb Hrun).
  simpl. lia.
Defined.

Lemma short_plan_used_all_tries_witness :
  exists st,
    placement_loop 3000000 30 2 15 15 ["FM"%string] 4 3 (Z.to_nat 3)
      (initial_state (Some 0) quiet_world) = Done st /\
    short_plan = assemble 3000000 30 (signals_of st) /\
    tries_of st = 3.
Proof.
  assert (generate_band_plan 3000000 30 2 15 15 ["FM"%string] (Some 0) 4 3
            quiet_world = Returns short_plan) as Hrun
    by (vm_compute; reflexivity).
  apply (short_plan_used_all_tries 3000000 30 2 15 15 ["FM"%string]
           (Some 0) 4 3 quiet_world short_plan).
  - lia.
  - exact Hrun.
  - simpl. lia.
Defined.

Lemma first_candidate_accepted_witness :
  1 <= BandPlan.n_signals sample_plan.
Proof.
  assert (generate_band_plan 3000000 30 3 15 20 sample_types
            (Some sample_seed) 4 10 quiet_world = Returns sample_plan)
    as Hrun by (vm_compute; reflexivity).
  apply (first_candidate_accepted 3000000 30 3 15 20 sample_types
           (Some sample_seed) 4 10 quiet_world sample_plan); [lia|lia|].
  exact Hrun.
Defined.

Lemma draws_accounting_witness :
  exists st,
    placement_loop 3000000 30 3 15 20 sample_types 4 10 10
      (initial_state (Some sample_seed) quiet_world) = Done st /\
    Z.of_nat (rnd_draws (rng_of st))
    = Z.of_nat (rnd_draws (rng_of (initial_state (Some sample_seed)
                                     quiet_world)))
      + 3 * tries_of st + Z.of_nat (length (signals_of st)).
Proof.
  assert (exists st,
             placement_loop 3000000 30 3 15 20 sample_types 4 10 10
               (initial_state (Some sample_seed) quiet_world) = Done st)
    as [st Hrun] by (eexists; vm_compute; reflexivity).
  exists st. split; [exact Hrun|].
  exact (draws_accounting 3000000 30 3 15 20 sample_types
           (Some sample_seed) 4 10 quiet_world 10 st Hrun).
Defined.



Lemma signals_at_most_tries_witness :
  BandPlan.n_signals sample_plan <= 10.
Proof.
  assert (generate_band_plan 3000000 30 3 15 20 sample_types
            (Some sample_seed) 4 10 quiet_world = Returns sample_plan)
    as Hrun by (vm_compute; reflexivity).
  apply (signals_at_most_tries 3000000 30 3 15 20 sample_types
           (Some sample_seed) 4 10 quiet_world sample_plan); [lia|exact Hrun].
Defined.
